(** * Static asset server of the VironaX storefront: resolver and handler

    Shallow embedding of the HTTP server part of
    [src/assets/vironax-localization-fix.js] (the [PORT] constant, the
    [MIME_TYPES] table, [resolveFilePath] and the request handler passed
    to [http.createServer]) together with the properties the design
    document states about it.

    Conventions.
    - A JavaScript string is a [string]: the bytes of its UTF-8 encoding,
      which is also what Node hands to the operating system as a path.
      Every character the server inspects (['?'], ['%'], ['.'], ['/'],
      the backslash, digits and ASCII letters) is one byte below 128, and
      no byte of a multi-byte sequence is below 128, so the byte-level
      tests agree with the code-unit tests of the source.
    - The host functions ([decodeURIComponent], [path.normalize],
      [path.join], [path.extname], [Number.parseInt]) follow ECMA-262 and
      the POSIX flavour of Node's [path] module.
    - The file system and the read streams are inputs: a [filesystem]
      gives, for every path, the outcome of [fs.statSync] and the events
      of [fs.createReadStream]. *)

From Stdlib Require Import ZArith Lia Ascii String List Bool.
From stdpp Require Import base strings gmap pretty.
Import ListNotations.
Open Scope string_scope.

(** ** Characters and strings *)

Module Str.

Definition is_slash (c : ascii) : bool := Ascii.eqb c "/".
Definition is_backslash (c : ascii) : bool := Ascii.eqb c "\".
Definition is_dot (c : ascii) : bool := Ascii.eqb c ".".

(** [s.split(sep)] of JavaScript for a one-character separator: the
    pieces between the separators, always at least one piece. *)
Fixpoint split (sep : ascii) (s : string) : list string :=
  match s with
  | EmptyString => [EmptyString]
  | String c s' =>
      if Ascii.eqb c sep then EmptyString :: split sep s'
      else match split sep s' with
           | seg :: segs => String c seg :: segs
           | [] => [String c EmptyString]
           end
  end.

(** [segs.join(sep)]. *)
Fixpoint join_with (sep : string) (segs : list string) : string :=
  match segs with
  | [] => EmptyString
  | [seg] => seg
  | seg :: segs' => seg ++ sep ++ join_with sep segs'
  end.

Definition rev (s : string) : string :=
  string_of_list_ascii (List.rev (list_ascii_of_string s)).

Definition starts_with_slash (s : string) : bool :=
  match s with
  | String c _ => is_slash c
  | EmptyString => false
  end.

Definition ends_with_slash (s : string) : bool :=
  starts_with_slash (rev s).

(** [String.prototype.toLowerCase] on the ASCII letters.  The other
    case mappings of Unicode never produce one of the keys of
    [MIME_TYPES]: the only non-ASCII characters whose lower case contains
    an ASCII letter are U+212A (to [k], which no key contains) and U+0130
    (to [i] followed by U+0307, which no key contains), so the content
    type looked up from the result is the one the source computes. *)
Definition lower_ascii (c : ascii) : ascii :=
  let n := N_of_ascii c in
  if ((65 <=? n) && (n <=? 90))%N then ascii_of_N (n + 32) else c.

Fixpoint toLowerCase (s : string) : string :=
  match s with
  | EmptyString => EmptyString
  | String c s' => String (lower_ascii c) (toLowerCase s')
  end.

End Str.

(** ** [decodeURIComponent] (ECMA-262, Decode with an empty reserved set)

    The text is first cut into literal characters and [%XX] escapes; a
    ['%'] that is not followed by two hexadecimal digits is a [URIError].
    An escape below 128 is that character.  An escape of 128 or more must
    open a well-formed UTF-8 sequence whose other bytes are escapes too;
    anything else is a [URIError]. [None] stands for the thrown
    [URIError]. *)

Module URI.

Definition hex_digit (c : ascii) : option N :=
  let n := N_of_ascii c in
  if ((48 <=? n) && (n <=? 57))%N then Some (n - 48)%N
  else if ((65 <=? n) && (n <=? 70))%N then Some (n - 55)%N
  else if ((97 <=? n) && (n <=? 102))%N then Some (n - 87)%N
  else None.

Inductive token :=
  | Lit (c : ascii)
  | Esc (b : N).

Fixpoint tokens (s : string) : option (list token) :=
  match s with
  | EmptyString => Some []
  | String c rest =>
      if Ascii.eqb c "%" then
        match rest with
        | String h (String l rest') =>
            match hex_digit h, hex_digit l, tokens rest' with
            | Some hi, Some lo, Some ts => Some (Esc (16 * hi + lo) :: ts)
            | _, _, _ => None
            end
        | _ => None
        end
      else
        match tokens rest with
        | Some ts => Some (Lit c :: ts)
        | None => None
        end
  end.

Definition in_range (lo hi b : N) : bool := ((lo <=? b) && (b <=? hi))%N.
Definition cont (b : N) : bool := in_range 128 191 b.

(** Well-formed UTF-8 sequences of two, three and four bytes (Unicode,
    table 3-7): no overlong form, no surrogate, nothing above U+10FFFF. *)
Definition utf8_2 (b0 b1 : N) : bool := in_range 194 223 b0 && cont b1.

Definition utf8_3 (b0 b1 b2 : N) : bool :=
  ((b0 =? 224)%N && in_range 160 191 b1 && cont b2)
  || (in_range 225 236 b0 && cont b1 && cont b2)
  || ((b0 =? 237)%N && in_range 128 159 b1 && cont b2)
  || (in_range 238 239 b0 && cont b1 && cont b2).

Definition utf8_4 (b0 b1 b2 b3 : N) : bool :=
  ((b0 =? 240)%N && in_range 144 191 b1 && cont b2 && cont b3)
  || (in_range 241 243 b0 && cont b1 && cont b2 && cont b3)
  || ((b0 =? 244)%N && in_range 128 143 b1 && cont b2 && cont b3).

Definition bytes (bs : list N) : string :=
  string_of_list_ascii (map ascii_of_N bs).

Fixpoint decode_tokens (ts : list token) : option string :=
  match ts with
  | [] => Some EmptyString
  | Lit c :: ts' => String c <$> decode_tokens ts'
  | Esc b0 :: ts' =>
      if (b0 <? 128)%N then String (ascii_of_N b0) <$> decode_tokens ts'
      else if in_range 192 223 b0 then
        match ts' with
        | Esc b1 :: r =>
            if utf8_2 b0 b1
            then append (bytes [b0; b1]) <$> decode_tokens r else None
        | _ => None
        end
      else if in_range 224 239 b0 then
        match ts' with
        | Esc b1 :: Esc b2 :: r =>
            if utf8_3 b0 b1 b2
            then append (bytes [b0; b1; b2]) <$> decode_tokens r else None
        | _ => None
        end
      else if in_range 240 247 b0 then
        match ts' with
        | Esc b1 :: Esc b2 :: Esc b3 :: r =>
            if utf8_4 b0 b1 b2 b3
            then append (bytes [b0; b1; b2; b3]) <$> decode_tokens r else None
        | _ => None
        end
      else None
  end.

Definition decodeURIComponent (s : string) : option string :=
  tokens s ≫= decode_tokens.

End URI.

(** ** The POSIX [path] module of Node *)

Module Path.

(** One step of [normalizeString]: the segments kept so far are a stack,
    most recent first.  Empty segments and ["."] are dropped; [".."]
    removes the segment before it, unless there is none or it is itself
    [".."], in which case it is kept for a relative path and dropped for
    an absolute one. *)
Definition normalize_step (allowAboveRoot : bool)
    (stack : list string) (seg : string) : list string :=
  if String.eqb seg "" || String.eqb seg "." then stack
  else if String.eqb seg ".." then
    match stack with
    | top :: below =>
        if String.eqb top ".."
        then (if allowAboveRoot then ".." :: stack else stack)
        else below
    | [] => if allowAboveRoot then [".."] else []
    end
  else seg :: stack.

Definition normalizeString (path : string) (allowAboveRoot : bool) : string :=
  Str.join_with "/"
    (List.rev (fold_left (normalize_step allowAboveRoot) (Str.split "/" path) [])).

(** [path.normalize]. *)
Definition normalize (path : string) : string :=
  if String.eqb path "" then "."
  else
    let isAbsolute := Str.starts_with_slash path in
    let trailingSeparator := Str.ends_with_slash path in
    let p := normalizeString path (negb isAbsolute) in
    if String.eqb p "" then
      (if isAbsolute then "/" else if trailingSeparator then "./" else ".")
    else
      (if isAbsolute then "/" else "") ++ p
        ++ (if trailingSeparator then "/" else "").

(** [path.join(a, b)]: the non-empty arguments glued with ['/'], then
    normalized. *)
Definition join (a b : string) : string :=
  match a, b with
  | EmptyString, EmptyString => "."
  | _, EmptyString => normalize a
  | EmptyString, _ => normalize b
  | _, _ => normalize (a ++ "/" ++ b)
  end.

(** [path.extname]: in the last component of the path (trailing slashes
    ignored), the text from the last ['.'] on; empty when there is no
    dot, when the only dot opens the component, or when the component is
    [".."].  The scan runs over the reversed path, as in Node. *)
Fixpoint drop_slashes (r : string) : string :=
  match r with
  | String c r' => if Str.is_slash c then drop_slashes r' else r
  | EmptyString => EmptyString
  end.

Fixpoint last_component_rev (r : string) : string :=
  match r with
  | String c r' =>
      if Str.is_slash c then EmptyString else String c (last_component_rev r')
  | EmptyString => EmptyString
  end.

(** On a reversed component: the reversed extension (dot included) and
    what stands before the dot, or [None] without a dot. *)
Fixpoint cut_at_dot (r : string) : option (string * string) :=
  match r with
  | EmptyString => None
  | String c r' =>
      if Str.is_dot c then Some (String c EmptyString, r')
      else match cut_at_dot r' with
           | Some (e, before) => Some (String c e, before)
           | None => None
           end
  end.

Definition extname_rev (r : string) : string :=
  let comp := last_component_rev (drop_slashes r) in
  match cut_at_dot comp with
  | None => ""
  | Some (e, before) =>
      if String.eqb before "" then ""
      else if String.eqb comp ".." then ""
      else Str.rev e
  end.

Definition extname (path : string) : string := extname_rev (Str.rev path).

End Path.

(** ** Numbers: [Number.parseInt(s, 10)] and the listen port *)

Module Num.

(** A Number as far as the port needs it: [NaN], or [Int z], the Number
    value of the mathematical integer [z] (exactly [z] up to 2^53, the
    double next to it beyond).  Both zeros are [Int 0]. *)
Inductive number :=
  | NaN
  | Int (z : Z).

(** [ToString] of the value of [process.env.PORT]: an absent variable
    reads as [undefined]. *)
Definition ToString (v : option string) : string :=
  match v with
  | Some s => s
  | None => "undefined"
  end.

(** Leading white space and line terminators of ECMA-262, in UTF-8:
    U+0009 to U+000D, U+0020, U+00A0, U+1680, U+2000 to U+200A, U+2028,
    U+2029, U+202F, U+205F, U+3000 and U+FEFF. *)
Fixpoint trim_start (s : string) : string :=
  match s with
  | EmptyString => EmptyString
  | String c r =>
      let n := N_of_ascii c in
      if (((9 <=? n) && (n <=? 13)) || (n =? 32))%N then trim_start r
      else
        match r with
        | String c1 r1 =>
            let n1 := N_of_ascii c1 in
            if ((n =? 194) && (n1 =? 160))%N then trim_start r1
            else
              match r1 with
              | String c2 r2 =>
                  let n2 := N_of_ascii c2 in
                  if (((n =? 225) && (n1 =? 154) && (n2 =? 128))
                      || ((n =? 226) && (n1 =? 128)
                          && (((128 <=? n2) && (n2 <=? 138))
                              || (n2 =? 168) || (n2 =? 169) || (n2 =? 175)))
                      || ((n =? 226) && (n1 =? 129) && (n2 =? 159))
                      || ((n =? 227) && (n1 =? 128) && (n2 =? 128))
                      || ((n =? 239) && (n1 =? 187) && (n2 =? 191)))%N
                  then trim_start r2 else s
              | EmptyString => s
              end
        | EmptyString => s
        end
  end.

Definition digit (c : ascii) : option Z :=
  let n := N_of_ascii c in
  if ((48 <=? n) && (n <=? 57))%N then Some (Z.of_N (n - 48)) else None.

(** The value of the longest prefix of decimal digits, [None] when the
    text does not start with a digit; [acc] is the value read so far. *)
Fixpoint digits (acc : option Z) (s : string) : option Z :=
  match s with
  | EmptyString => acc
  | String c r =>
      match digit c with
      | Some d => digits (Some (10 * default 0 acc + d)%Z) r
      | None => acc
      end
  end.

Definition parseInt10 (input : string) : number :=
  let s := trim_start input in
  let '(sign, s) :=
    match s with
    | String c r =>
        if Ascii.eqb c "-" then ((-1)%Z, r)
        else if Ascii.eqb c "+" then (1%Z, r)
        else (1%Z, s)
    | EmptyString => (1%Z, s)
    end in
  match digits None s with
  | None => NaN
  | Some mathInt => Int (sign * mathInt)%Z
  end.

(** [ToBoolean] of a Number: [NaN] and the zeros are falsy. *)
Definition truthy (v : number) : bool :=
  match v with
  | NaN => false
  | Int z => negb (z =? 0)%Z
  end.

(** [a || b] on Numbers. *)
Definition or_else (a b : number) : number := if truthy a then a else b.

End Num.

(** ** Exceptions, the file system, the response object *)

Inductive exn :=
  | URIError
  | SystemError (code : string)
  | ERR_HTTP_HEADERS_SENT.

(** [error.code]; a [URIError] has none. *)
Definition error_code (e : exn) : option string :=
  match e with
  | URIError => None
  | SystemError code => Some code
  | ERR_HTTP_HEADERS_SENT => Some "ERR_HTTP_HEADERS_SENT"
  end.

Inductive kind :=
  | RegularFile
  | Directory
  | OtherEntry.

(** What [fs.statSync] does on a path: the entry found, or the system
    error thrown (["ENOENT"], ["EACCES"], ["ENOTDIR"], ...). *)
Inductive stat_outcome :=
  | Stats (k : kind)
  | StatError (code : string).

(** What a read stream opened on a path emits, in order, once the
    handler has returned. *)
Inductive stream_event :=
  | Data (chunk : string)
  | End
  | StreamError.

Record filesystem := {
  stat_of : string -> stat_outcome;
  stream_of : string -> list stream_event
}.

Inductive fs_call :=
  | CallStatSync (p : string)
  | CallExistsSync (p : string)
  | CallCreateReadStream (p : string).

(** The [ServerResponse]: the status line and headers stored by
    [writeHead] (none yet at the start), the body written so far, and
    whether [end] was called. *)
Record response := {
  header : option (nat * list (string * string));
  body : string;
  finished : bool
}.

Record world := {
  fs_calls : list fs_call;
  res : response
}.

Definition start : world :=
  {| fs_calls := [];
     res := {| header := None; body := ""; finished := false |} |}.

Inductive result (A : Type) :=
  | Ok (a : A)
  | Throw (e : exn).
Arguments Ok {A} a.
Arguments Throw {A} e.

(** A computation reads and changes the world and returns or throws. *)
Definition M (A : Type) : Type := world -> world * result A.

Definition ret {A} (a : A) : M A := fun w => (w, Ok a).
Definition throw {A} (e : exn) : M A := fun w => (w, Throw e).

Definition bind {A B} (m : M A) (k : A -> M B) : M B :=
  fun w =>
    match m w with
    | (w', Ok a) => k a w'
    | (w', Throw e) => (w', Throw e)
    end.

(** [try { m } catch (error) { h error }]. *)
Definition try_catch {A} (m : M A) (h : exn -> M A) : M A :=
  fun w =>
    match m w with
    | (w', Ok a) => (w', Ok a)
    | (w', Throw e) => h e w'
    end.

(** [try { x = m } catch (error) { ... }] where the handler leaves the
    function: the caller sees what [m] did. *)
Definition attempt {A} (m : M A) : M (result A) :=
  fun w => let '(w', r) := m w in (w', Ok r).

Notation "'let*' x ':=' m 'in' k" := (bind m (fun x => k))
  (at level 10, x name, m at level 100, k at level 200, only parsing).

#[global] Instance M_ret : MRet M := @ret.
#[global] Instance M_bind : MBind M := fun A B k m => bind m k.

Definition log_call (c : fs_call) : M unit :=
  fun w => ({| fs_calls := fs_calls w ++ [c]; res := res w |}, Ok tt).

Definition update_res (f : response -> response) : M unit :=
  fun w => ({| fs_calls := fs_calls w; res := f (res w) |}, Ok tt).

Definition get_res : M response := fun w => (w, Ok (res w)).

Module Fs.
Section Fs.
Variable fs : filesystem.

(** [fs.statSync(p)]. *)
Definition statSync (p : string) : M kind :=
  log_call (CallStatSync p) ;;
  match stat_of fs p with
  | Stats k => ret k
  | StatError code => throw (SystemError code)
  end.

(** [fs.existsSync(p)]: whether the path can be reached; never throws. *)
Definition existsSync (p : string) : M bool :=
  log_call (CallExistsSync p) ;;
  match stat_of fs p with
  | Stats _ => ret true
  | StatError _ => ret false
  end.

(** [fs.createReadStream(p)]: nothing is opened yet; the events come
    after the handler has returned. *)
Definition createReadStream (p : string) : M (list stream_event) :=
  log_call (CallCreateReadStream p) ;;
  ret (stream_of fs p).

End Fs.
End Fs.

Definition isFile (k : kind) : bool :=
  match k with RegularFile => true | _ => false end.
Definition isDirectory (k : kind) : bool :=
  match k with Directory => true | _ => false end.

Module Res.

(** [res.writeHead(statusCode, headers)]: stores the status line and the
    headers; nothing goes to the socket before the first [write] or
    [end].  Once a header is stored, a further [writeHead] throws
    [ERR_HTTP_HEADERS_SENT], as current Node releases do. *)
Definition writeHead (statusCode : nat) (headers : list (string * string))
    : M unit :=
  let* r := get_res in
  match header r with
  | Some _ => throw ERR_HTTP_HEADERS_SENT
  | None =>
      update_res (fun r =>
        {| header := Some (statusCode, headers);
           body := body r; finished := finished r |})
  end.

(** The header a response gets when none was written: status 200. *)
Definition implicit_header (r : response) : option (nat * list (string * string)) :=
  match header r with
  | Some h => Some h
  | None => Some (200, [])
  end.

(** [res.write(chunk)]. *)
Definition write (chunk : string) : M unit :=
  update_res (fun r =>
    if finished r then r
    else {| header := implicit_header r; body := body r ++ chunk;
            finished := false |}).

(** [res.end(data)]. *)
Definition end_ (data : string) : M unit :=
  update_res (fun r =>
    if finished r then r
    else {| header := implicit_header r; body := body r ++ data;
            finished := true |}).

End Res.

(** ** The server *)

Module Server.

(** [const PORT = Number.parseInt(process.env.PORT, 10) || 3000]. *)
Definition PORT (env_PORT : option string) : Num.number :=
  Num.or_else (Num.parseInt10 (Num.ToString env_PORT)) (Num.Int 3000).

(** [MIME_TYPES].  Every key starts with a dot and [path.extname] gives
    the empty string or a string that starts with a dot, so a lookup
    never reaches a property inherited from [Object.prototype]. *)
Definition MIME_TYPES : gmap string string :=
  list_to_map
    [ (".html", "text/html; charset=utf-8");
      (".css", "text/css; charset=utf-8");
      (".js", "application/javascript; charset=utf-8");
      (".json", "application/json; charset=utf-8");
      (".png", "image/png");
      (".jpg", "image/jpeg");
      (".jpeg", "image/jpeg");
      (".gif", "image/gif");
      (".svg", "image/svg+xml");
      (".ico", "image/x-icon");
      (".txt", "text/plain; charset=utf-8") ].

(** [MIME_TYPES[ext] || 'application/octet-stream']. *)
Definition contentType_of_ext (ext : string) : string :=
  match MIME_TYPES !! ext with
  | Some t => if String.eqb t "" then "application/octet-stream" else t
  | None => "application/octet-stream"
  end.

(** [requestPath.split('?')[0]]. *)
Definition before_query (requestPath : string) : string :=
  match Str.split "?" requestPath with
  | piece :: _ => piece
  | [] => ""
  end.

(** [.replace(/^([.][.][/\\])+/, '')]: removes every leading [../] and
    [..\]. *)
Fixpoint strip_leading_parents (s : string) : string :=
  match s with
  | String c0 (String c1 (String c2 rest)) =>
      if Str.is_dot c0 && Str.is_dot c1
         && (Str.is_slash c2 || Str.is_backslash c2)
      then strip_leading_parents rest else s
  | _ => s
  end.

(** The first three statements of [resolveFilePath]: [decodedPath],
    [normalizedPath] and [relativePath]; [None] when decoding throws. *)
Definition relativePath_of (requestPath : string) : option string :=
  match URI.decodeURIComponent (before_query requestPath) with
  | None => None
  | Some decodedPath =>
      let normalizedPath :=
        strip_leading_parents (Path.normalize decodedPath) in
      Some (if String.eqb normalizedPath "/" then "/index.html"
            else normalizedPath)
  end.

Definition text_plain : list (string * string) :=
  [("Content-Type", "text/plain; charset=utf-8")].

Section Server.

(** [__dirname], the directory of the server script. *)
Variable ROOT_DIR : string.
Variable fs : filesystem.

Definition PUBLIC_DIR : string := Path.join ROOT_DIR "public".

Definition candidates_of (relativePath : string) : list string :=
  [ Path.join PUBLIC_DIR relativePath; Path.join ROOT_DIR relativePath ].

(** The body of the [for] loop: [Some p] is [return p], [None] goes on
    with the next candidate. *)
Definition probe (candidate : string) : M (option string) :=
  try_catch
    (let* stats := Fs.statSync fs candidate in
     if isFile stats then ret (Some candidate)
     else if isDirectory stats then
       let indexPath := Path.join candidate "index.html" in
       let* found := Fs.existsSync fs indexPath in
       if found then ret (Some indexPath) else ret None
     else ret None)
    (fun error =>
       if bool_decide (error_code error ≠ Some "ENOENT")
       then throw error else ret None).

(** [for (const candidate of candidates) ...; return null]. *)
Fixpoint probe_all (candidates : list string) : M (option string) :=
  match candidates with
  | [] => ret None
  | candidate :: rest =>
      let* r := probe candidate in
      match r with
      | Some filePath => ret (Some filePath)
      | None => probe_all rest
      end
  end.

Definition resolveFilePath (requestPath : string) : M (option string) :=
  match relativePath_of requestPath with
  | None => throw URIError
  | Some relativePath => probe_all (candidates_of relativePath)
  end.

Definition contentType_of (filePath : string) : string :=
  let ext := Str.toLowerCase (Path.extname filePath) in
  contentType_of_ext ext.

(** The listener on ['error'] of the read stream. *)
Definition on_stream_error : M unit :=
  Res.writeHead 500 text_plain ;;
  Res.end_ "Internal Server Error".

(** [stream.pipe(res)] with that listener, over the events the stream
    emits: data is written to the response, the end of the stream ends
    it, an error runs the listener and nothing is piped afterwards. *)
Fixpoint pipe (events : list stream_event) : M unit :=
  match events with
  | [] => ret tt
  | Data chunk :: events' => Res.write chunk ;; pipe events'
  | End :: _ => Res.end_ ""
  | StreamError :: _ => on_stream_error
  end.

(** [!v] for a value that is a string, [undefined] or [null]. *)
Definition falsy (v : option string) : bool :=
  match v with
  | None => true
  | Some u => String.eqb u ""
  end.

(** The request handler, followed by the events of the stream it
    opened.  [url] is [req.url]. *)
Definition handler (url : option string) : M unit :=
  if falsy url then
    Res.writeHead 400 text_plain ;;
    Res.end_ "Bad Request"
  else
    let* resolved := attempt (resolveFilePath (default "" url)) in
    match resolved with
    | Throw _ =>
        Res.writeHead 500 text_plain ;;
        Res.end_ "Internal Server Error"
    | Ok filePath =>
        if falsy filePath then
          Res.writeHead 404 text_plain ;;
          Res.end_ "Not Found"
        else
          let filePath := default "" filePath in
          let contentType := contentType_of filePath in
          let* events := Fs.createReadStream fs filePath in
          Res.writeHead 200 [("Content-Type", contentType)] ;;
          pipe events
    end.

(** One request against a new response object. *)
Definition serve (url : option string) : world * result unit :=
  handler url start.

End Server.

End Server.

(** ** What the properties speak about *)

(** [pre] is empty or ends with a slash: what follows it is a whole
    component of the path. *)
Definition component_start (pre : string) : Prop :=
  pre = "" \/ exists q, pre = q ++ "/".

(** The world after some more calls into the [fs] module. *)
Definition logged (w : world) (calls : list fs_call) : world :=
  {| fs_calls := fs_calls w ++ calls; res := res w |}.

Definition index_of (candidate : string) : string :=
  Path.join candidate "index.html".

Definition response_of (out : world * result unit) : response :=
  res (fst out).

(** A finished plain-text response. *)
Definition plain (status : nat) (text : string) : response :=
  {| header := Some (status, Server.text_plain);
     body := text; finished := true |}.

(** The world in which the handler opened a stream on [p] and stored
    the header of a 200 response. *)
Definition streaming (w : world) (p : string) : world :=
  {| fs_calls := fs_calls w ++ [CallCreateReadStream p];
     res := {| header :=
                 Some (200, [("Content-Type", Server.contentType_of p)]);
               body := ""; finished := false |} |}.

Definition status (r : response) : option nat := fst <$> header r.

(** [p] is [base] or lies below it. *)
Definition inside (base p : string) : bool :=
  String.eqb p base || String.prefix (base ++ "/") p.

(** The candidate does not answer, in the words of the design document:
    it does not exist, or it is a directory without [index.html]. *)
Definition present (fs : filesystem) (p : string) : Prop :=
  exists k, stat_of fs p = Stats k.

Definition passes_over (fs : filesystem) (c : string) : Prop :=
  stat_of fs c = StatError "ENOENT"
  \/ (stat_of fs c = Stats Directory /\ ~ present fs (index_of c)).

(** The calls the probe of one candidate makes. *)
Definition probe_calls (fs : filesystem) (c : string) : list fs_call :=
  match stat_of fs c with
  | Stats Directory => [CallStatSync c; CallExistsSync (index_of c)]
  | _ => [CallStatSync c]
  end.

(** The MIME table as the design document lists it. *)
Definition mime_table (ext : string) : string :=
  if String.eqb ext ".html" then "text/html; charset=utf-8"
  else if String.eqb ext ".css" then "text/css; charset=utf-8"
  else if String.eqb ext ".js" then "application/javascript; charset=utf-8"
  else if String.eqb ext ".json" then "application/json; charset=utf-8"
  else if String.eqb ext ".png" then "image/png"
  else if String.eqb ext ".jpg" then "image/jpeg"
  else if String.eqb ext ".jpeg" then "image/jpeg"
  else if String.eqb ext ".gif" then "image/gif"
  else if String.eqb ext ".svg" then "image/svg+xml"
  else if String.eqb ext ".ico" then "image/x-icon"
  else if String.eqb ext ".txt" then "text/plain; charset=utf-8"
  else "application/octet-stream".

(** The port as the design document states it: the integer read from
    the input, and 3000 only when there is none. *)
Definition claimed_port (env_PORT : option string) : Num.number :=
  match Num.parseInt10 (Num.ToString env_PORT) with
  | Num.NaN => Num.Int 3000
  | Num.Int z => Num.Int z
  end.

(** ** Paths by their components, streams by their chunks *)

(** No character of [s] is a slash. *)
Fixpoint no_slash (s : string) : bool :=
  match s with
  | EmptyString => true
  | String c s' => negb (Str.is_slash c) && no_slash s'
  end.

(** A proper path component: not empty, not ["."], not [".."], without
    slash. *)
Definition is_segment (s : string) : bool :=
  negb (String.eqb s "") && negb (String.eqb s ".")
  && negb (String.eqb s "..") && no_slash s.

(** The absolute path with the components [segs]. *)
Definition of_segments (segs : list string) : string :=
  "/" ++ Str.join_with "/" segs.

(** The chunks of a stream, one after the other. *)
Definition all_data (chunks : list string) : string :=
  fold_right append "" chunks.

(** Pieces that are proper components or empty. *)
Definition loose (s : string) : bool := is_segment s || String.eqb s "".

(** A trailing slash is an empty last piece. *)
Definition trailing (slash : bool) : list string :=
  if slash then [""] else [].

(** The file system [fs] with the outcome of [statSync] changed at one
    path. *)
Definition with_stat (fs : filesystem) (path : string)
    (outcome : stat_outcome) : filesystem :=
  {| stat_of p := if String.eqb p path then outcome else stat_of fs p;
     stream_of := stream_of fs |}.

(** The file system [fs] with the events of the stream changed at one
    path. *)
Definition with_stream (fs : filesystem) (path : string)
    (events : list stream_event) : filesystem :=
  {| stat_of := stat_of fs;
     stream_of p := if String.eqb p path then events else stream_of fs p |}.

(** ** A sample installation *)

Module Demo.

(** A file system given by its entries and by what reading each file
    gives; a path without entry does not exist, a stream without
    description fails. *)
Definition tree (entries : gmap string kind)
    (streams : gmap string (list stream_event)) : filesystem :=
  {| stat_of p :=
       match entries !! p with
       | Some k => Stats k
       | None => StatError "ENOENT"
       end;
     stream_of p := default [StreamError] (streams !! p) |}.

Definition ROOT_DIR : string := "/srv/app".

(** The server lives in [/srv/app]; [/srv/index.html] belongs to
    another site.  [docs/index.html] is a directory, [foo.png] is a
    directory with an index, [locked.txt] cannot be opened. *)
Definition site : filesystem :=
  tree
    (list_to_map
       [ ("/srv", Directory);
         ("/srv/index.html", RegularFile);
         ("/srv/app", Directory);
         ("/srv/app/server.js", RegularFile);
         ("/srv/app/public", Directory);
         ("/srv/app/public/index.html", RegularFile);
         ("/srv/app/public/app.js", RegularFile);
         ("/srv/app/public/LOGO.PNG", RegularFile);
         ("/srv/app/public/data.bin", RegularFile);
         ("/srv/app/public/locked.txt", RegularFile);
         ("/srv/app/public/foo.png", Directory);
         ("/srv/app/public/foo.png/index.html", RegularFile);
         ("/srv/app/public/docs", Directory);
         ("/srv/app/public/docs/index.html", Directory);
         ("/srv/app/public/empty", Directory) ])
    (list_to_map
       [ ("/srv/index.html", [Data "<h1>other site</h1>"; End]);
         ("/srv/app/server.js", [Data "const http = require('http');"; End]);
         ("/srv/app/public/index.html", [Data "<h1>VironaX</h1>"; End]);
         ("/srv/app/public/app.js", [Data "console.log("; Data "1);"; End]);
         ("/srv/app/public/LOGO.PNG", [Data "PNG"; End]);
         ("/srv/app/public/data.bin", [Data "0101"; End]);
         ("/srv/app/public/foo.png/index.html", [Data "<p>foo</p>"; End]) ]).

End Demo.

(** * Properties *)

(** ** Strings *)

Lemma append_cons (c : ascii) (a b : string) :
  String c a ++ b = String c (a ++ b).
Proof. reflexivity. Qed.

Lemma append_nil_r (s : string) : s ++ "" = s.
Proof.
  induction s as [|c s IH]; [reflexivity | now rewrite append_cons, IH].
Qed.

Lemma append_assoc (a b c : string) : (a ++ b) ++ c = a ++ (b ++ c).
Proof.
  induction a as [|x a IH]; [reflexivity | now rewrite !append_cons, IH].
Qed.

Lemma append_nonempty_r (a : string) (c : ascii) (b : string) :
  String.eqb (a ++ String c b) "" = false.
Proof. destruct a; reflexivity. Qed.

Lemma list_of_append (a b : string) :
  list_ascii_of_string (a ++ b)
  = (list_ascii_of_string a ++ list_ascii_of_string b)%list.
Proof.
  induction a as [|x a IH]; [reflexivity |].
  rewrite append_cons. simpl. now rewrite IH.
Qed.

Lemma string_of_app (l1 l2 : list ascii) :
  string_of_list_ascii (l1 ++ l2)%list
  = string_of_list_ascii l1 ++ string_of_list_ascii l2.
Proof.
  induction l1 as [|x l1 IH]; [reflexivity |].
  simpl. now rewrite append_cons, IH.
Qed.

Lemma rev_append (a b : string) : Str.rev (a ++ b) = Str.rev b ++ Str.rev a.
Proof.
  unfold Str.rev. now rewrite list_of_append, List.rev_app_distr, string_of_app.
Qed.

Lemma split_nonempty (sep : ascii) (s : string) :
  exists seg segs, Str.split sep s = seg :: segs.
Proof.
  induction s as [|c s (seg & segs & IH)]; simpl; [now eexists _, _ |].
  destruct (Ascii.eqb c sep); [now eexists _, _ |].
  rewrite IH. now eexists _, _.
Qed.

Lemma split_append_sep (sep : ascii) (a b : string) :
  Str.split sep (a ++ String sep b)
  = (Str.split sep a ++ Str.split sep b)%list.
Proof.
  induction a as [|c a IH].
  - change ("" ++ String sep b) with (String sep b). simpl.
    now rewrite Ascii.eqb_refl.
  - rewrite append_cons. simpl.
    destruct (Ascii.eqb c sep); rewrite IH; [reflexivity |].
    destruct (split_nonempty sep a) as (seg & segs & ->). reflexivity.
Qed.

Lemma join_with_snoc (sep : string) (segs : list string) (x : string) :
  Str.join_with sep (segs ++ [x])
  = match segs with
    | [] => x
    | _ => (Str.join_with sep segs ++ sep) ++ x
    end.
Proof.
  induction segs as [|s segs IH]; [reflexivity |].
  destruct segs as [|s' segs]; [simpl; now rewrite append_assoc |].
  change (Str.join_with sep ((s :: s' :: segs) ++ [x]))
    with (s ++ sep ++ Str.join_with sep ((s' :: segs) ++ [x])).
  rewrite IH.
  change (Str.join_with sep (s :: s' :: segs))
    with (s ++ sep ++ Str.join_with sep (s' :: segs)).
  now rewrite !append_assoc.
Qed.

(** ** Paths that end in [index.html] *)

Lemma normalize_index_html (a : string) :
  exists pre,
    Path.normalize (a ++ "/index.html") = pre ++ "index.html"
    /\ component_start pre.
Proof.
  unfold Path.normalize.
  rewrite append_nonempty_r.
  assert (Str.ends_with_slash (a ++ "/index.html") = false) as ->.
  { unfold Str.ends_with_slash. now rewrite rev_append. }
  cbv zeta. unfold Path.normalizeString.
  rewrite split_append_sep, fold_left_app.
  set (allow := negb _).
  set (stack := fold_left _ (Str.split "/" a) []).
  change (fold_left (Path.normalize_step allow) (Str.split "/" "index.html") stack)
    with ("index.html" :: stack).
  change (List.rev ("index.html" :: stack))
    with (List.rev stack ++ ["index.html"])%list.
  rewrite join_with_snoc.
  destruct (List.rev stack) as [|s segs].
  - change (String.eqb "index.html" "") with false. cbv iota.
    rewrite append_nil_r.
    destruct (Str.starts_with_slash _).
    + exists "/". split; [reflexivity | right; now exists ""].
    + exists "". split; [reflexivity | now left].
  - rewrite append_nonempty_r, append_nil_r.
    set (j := Str.join_with "/" (s :: segs)).
    destruct (Str.starts_with_slash _).
    + exists (("/" ++ j) ++ "/"). split; [now rewrite !append_assoc |].
      right. now eexists.
    + exists (j ++ "/"). split; [reflexivity |]. right. now eexists.
Qed.

Lemma join_index_html (c rel : string) :
  rel = "index.html" \/ rel = "/index.html" ->
  exists pre,
    Path.join c rel = pre ++ "index.html" /\ component_start pre.
Proof.
  intros [-> | ->]; destruct c as [|x c].
  - exists "". split; [reflexivity | now left].
  - apply (normalize_index_html (String x c)).
  - exists "/". split; [reflexivity | right; now exists ""].
  - destruct (normalize_index_html (String x c ++ "/")) as (pre & H & Hpre).
    exists pre. split; [| exact Hpre].
    rewrite <- H. unfold Path.join. now rewrite append_assoc.
Qed.

Lemma extname_index_html (pre : string) :
  component_start pre -> Path.extname (pre ++ "index.html") = ".html".
Proof.
  intros Hpre. unfold Path.extname. rewrite rev_append.
  destruct Hpre as [-> | (q & ->)]; [reflexivity |].
  now rewrite rev_append.
Qed.

Lemma normalize_nonempty (s : string) : String.eqb (Path.normalize s) "" = false.
Proof.
  unfold Path.normalize.
  destruct (String.eqb s ""); [reflexivity |]. cbv zeta.
  destruct (String.eqb (Path.normalizeString _ _) "") eqn:Hp.
  - destruct (Str.starts_with_slash s); [reflexivity |].
    now destruct (Str.ends_with_slash s).
  - destruct (Str.starts_with_slash s); [reflexivity |].
    destruct (Path.normalizeString _ _); [discriminate | reflexivity].
Qed.

Lemma join_nonempty (a b : string) : String.eqb (Path.join a b) "" = false.
Proof.
  unfold Path.join.
  destruct a, b; try reflexivity; apply normalize_nonempty.
Qed.

(** ** The sanitizer *)

(** What the sanitizer does achieve: its result never starts with
    [../] or [..\]. *)
Lemma strip_leading_parents_done (s rest : string) (sep : ascii) :
  Str.is_slash sep || Str.is_backslash sep = true ->
  Server.strip_leading_parents s <> String "." (String "." (String sep rest)).
Proof.
  intros Hsep.
  assert (H : forall n s, String.length s <= n ->
            Server.strip_leading_parents s
            <> String "." (String "." (String sep rest))).
  { clear s. induction n as [|n IH]; intros s Hn.
    - destruct s; [discriminate | simpl in Hn; lia].
    - destruct s as [|c0 [|c1 [|c2 s]]]; try discriminate.
      simpl.
      destruct (Str.is_dot c0 && Str.is_dot c1
                && (Str.is_slash c2 || Str.is_backslash c2)) eqn:Hc.
      + apply IH. simpl in Hn. lia.
      + intros [= -> -> -> _]. simpl in Hc. congruence. }
  apply (H (String.length s)). lia.
Qed.

(** ** The resolver, one candidate at a time *)

Lemma logged_logged (w : world) (l1 l2 : list fs_call) :
  logged (logged w l1) l2 = logged w (l1 ++ l2).
Proof. unfold logged. simpl. now rewrite app_assoc. Qed.

Lemma probe_eq (fs : filesystem) (c : string) (w : world) :
  Server.probe fs c w =
    match stat_of fs c with
    | Stats RegularFile => (logged w [CallStatSync c], Ok (Some c))
    | Stats Directory =>
        (logged w [CallStatSync c; CallExistsSync (index_of c)],
         Ok (match stat_of fs (index_of c) with
             | Stats _ => Some (index_of c)
             | StatError _ => None
             end))
    | Stats OtherEntry => (logged w [CallStatSync c], Ok None)
    | StatError code =>
        (logged w [CallStatSync c],
         if String.eqb code "ENOENT" then Ok None
         else Throw (SystemError code))
    end.
Proof.
  unfold Server.probe, try_catch, Fs.statSync, Fs.existsSync, index_of.
  unfold mbind, M_bind, bind, log_call, ret, throw. simpl.
  destruct (stat_of fs c) as [[]|code]; simpl; try reflexivity.
  - unfold logged. simpl. rewrite <- app_assoc. simpl.
    now destruct (stat_of fs (Path.join c "index.html")).
  - destruct (String.eqb_spec code "ENOENT") as [->|Hne].
    + reflexivity.
    + rewrite bool_decide_true; [reflexivity | congruence].
Qed.

Lemma probe_all_cons (fs : filesystem) (c : string) (rest : list string)
    (w : world) :
  Server.probe_all fs (c :: rest) w =
    match Server.probe fs c w with
    | (w', Ok (Some filePath)) => (w', Ok (Some filePath))
    | (w', Ok None) => Server.probe_all fs rest w'
    | (w', Throw e) => (w', Throw e)
    end.
Proof.
  simpl. unfold bind.
  destruct (Server.probe fs c w) as [w' [[p|]|e]]; reflexivity.
Qed.

(** The resolver only ever returns non-empty paths and leaves the
    response alone. *)
Lemma probe_all_sound (fs : filesystem) (cs : list string) (w w' : world)
    (r : result (option string)) :
  Server.probe_all fs cs w = (w', r) ->
  res w' = res w
  /\ forall p, r = Ok (Some p) ->
       exists c, In c cs
         /\ ((stat_of fs c = Stats RegularFile /\ p = c)
             \/ (stat_of fs c = Stats Directory /\ p = index_of c
                 /\ exists k, stat_of fs p = Stats k)).
Proof.
  revert w. induction cs as [|c cs IH]; intros w H.
  - inversion H; subst. split; [reflexivity | discriminate].
  - rewrite probe_all_cons, probe_eq in H.
    destruct (stat_of fs c) as [[]|code] eqn:Hc.
    + inversion H; subst. split; [reflexivity |].
      intros p [= <-]. exists c. split; [now left | now left].
    + destruct (stat_of fs (index_of c)) as [k|code'] eqn:Hi.
      * inversion H; subst. split; [reflexivity |].
        intros p [= <-]. exists c. split; [now left |].
        right. repeat split; eauto.
      * apply IH in H as [Hres Hp]. split; [exact Hres |].
        intros p Hr. destruct (Hp p Hr) as (c' & Hin & Hc').
        exists c'. split; [now right | exact Hc'].
    + apply IH in H as [Hres Hp]. split; [exact Hres |].
      intros p Hr. destruct (Hp p Hr) as (c' & Hin & Hc').
      exists c'. split; [now right | exact Hc'].
    + destruct (String.eqb code "ENOENT").
      * apply IH in H as [Hres Hp]. split; [exact Hres |].
        intros p Hr. destruct (Hp p Hr) as (c' & Hin & Hc').
        exists c'. split; [now right | exact Hc'].
      * inversion H; subst. split; [reflexivity | discriminate].
Qed.

Lemma resolve_sound (ROOT_DIR : string) (fs : filesystem) (url : string)
    (w w' : world) (p : string) :
  Server.resolveFilePath ROOT_DIR fs url w = (w', Ok (Some p)) ->
  res w' = res w /\ String.eqb p "" = false
  /\ exists rel c,
       Server.relativePath_of url = Some rel
       /\ In c (Server.candidates_of ROOT_DIR rel)
       /\ ((stat_of fs c = Stats RegularFile /\ p = c)
           \/ (stat_of fs c = Stats Directory /\ p = index_of c
               /\ exists k, stat_of fs p = Stats k)).
Proof.
  unfold Server.resolveFilePath.
  destruct (Server.relativePath_of url) as [rel|]; [| discriminate].
  intros H. apply probe_all_sound in H as [Hres Hp].
  destruct (Hp p eq_refl) as (c & Hin & Hc).
  split; [exact Hres |]. split.
  - destruct Hc as [[_ ->] | (_ & -> & _)].
    + destruct Hin as [<- | [<- | []]]; apply join_nonempty.
    + apply join_nonempty.
  - now exists rel, c.
Qed.

(** ** The handler *)

Lemma pipe_keeps_header (events : list stream_event) (w : world)
    (h : nat * list (string * string)) :
  header (res w) = Some h ->
  header (res (fst (Server.pipe events w))) = Some h.
Proof.
  revert w. induction events as [|[chunk| |] events IH]; intros w Hw.
  - exact Hw.
  - simpl. unfold mbind, M_bind, bind, Res.write, update_res. simpl.
    apply IH. simpl. destruct (finished (res w)); [exact Hw |].
    simpl. unfold Res.implicit_header. now rewrite Hw.
  - simpl. unfold Res.end_, update_res. simpl.
    destruct (finished (res w)); [exact Hw |].
    simpl. unfold Res.implicit_header. now rewrite Hw.
  - simpl. unfold Server.on_stream_error, mbind, M_bind, bind.
    unfold Res.writeHead, bind, get_res. now rewrite Hw.
Qed.

Lemma serve_falsy (ROOT_DIR : string) (fs : filesystem) (url : option string) :
  Server.falsy url = true ->
  Server.serve ROOT_DIR fs url
  = ({| fs_calls := []; res := plain 400 "Bad Request" |}, Ok tt).
Proof.
  intros H. unfold Server.serve, Server.handler. rewrite H. reflexivity.
Qed.

Lemma serve_throw (ROOT_DIR : string) (fs : filesystem) (url : string)
    (w : world) (e : exn) :
  String.eqb url "" = false ->
  Server.resolveFilePath ROOT_DIR fs url start = (w, Throw e) ->
  res w = res start ->
  Server.serve ROOT_DIR fs (Some url)
  = ({| fs_calls := fs_calls w; res := plain 500 "Internal Server Error" |},
     Ok tt).
Proof.
  intros Hurl H Hres. unfold Server.serve, Server.handler. simpl.
  rewrite Hurl. unfold bind, attempt. rewrite H.
  destruct w as [calls r]. simpl in Hres. subst r. reflexivity.
Qed.

Lemma serve_not_found (ROOT_DIR : string) (fs : filesystem) (url : string)
    (w : world) :
  String.eqb url "" = false ->
  Server.resolveFilePath ROOT_DIR fs url start = (w, Ok None) ->
  res w = res start ->
  Server.serve ROOT_DIR fs (Some url)
  = ({| fs_calls := fs_calls w; res := plain 404 "Not Found" |}, Ok tt).
Proof.
  intros Hurl H Hres. unfold Server.serve, Server.handler. simpl.
  rewrite Hurl. unfold bind, attempt. rewrite H.
  destruct w as [calls r]. simpl in Hres. subst r. reflexivity.
Qed.

Lemma serve_resolved (ROOT_DIR : string) (fs : filesystem) (url : string)
    (w : world) (p : string) :
  String.eqb url "" = false ->
  Server.resolveFilePath ROOT_DIR fs url start = (w, Ok (Some p)) ->
  Server.serve ROOT_DIR fs (Some url)
  = Server.pipe (stream_of fs p) (streaming w p).
Proof.
  intros Hurl H.
  destruct (resolve_sound _ _ _ _ _ _ H) as (Hres & Hp & _).
  unfold Server.serve, Server.handler. simpl.
  rewrite Hurl. unfold bind, attempt. rewrite H. simpl. rewrite Hp.
  destruct w as [calls r]. simpl in Hres. subst r. reflexivity.
Qed.

Lemma serve_resolved_header (ROOT_DIR : string) (fs : filesystem)
    (url : string) (w : world) (p : string) :
  String.eqb url "" = false ->
  Server.resolveFilePath ROOT_DIR fs url start = (w, Ok (Some p)) ->
  header (response_of (Server.serve ROOT_DIR fs (Some url)))
  = Some (200, [("Content-Type", Server.contentType_of p)]).
Proof.
  intros Hurl H. rewrite (serve_resolved _ _ _ _ _ Hurl H).
  unfold response_of. now apply pipe_keeps_header.
Qed.

(** Whenever the stream of a resolved file fails before any data, the
    listener's [writeHead(500)] comes after the [writeHead(200)] of the
    handler and throws. *)
Lemma stream_error_first (ROOT_DIR : string) (fs : filesystem)
    (url : string) (w : world) (p : string) (rest : list stream_event) :
  String.eqb url "" = false ->
  Server.resolveFilePath ROOT_DIR fs url start = (w, Ok (Some p)) ->
  stream_of fs p = StreamError :: rest ->
  Server.serve ROOT_DIR fs (Some url)
  = (streaming w p, Throw ERR_HTTP_HEADERS_SENT).
Proof.
  intros Hurl Hrun Hstream.
  rewrite (serve_resolved _ _ _ _ _ Hurl Hrun), Hstream. reflexivity.
Qed.

(** The example of the design document: [public/] holds [index.html]
    and [app.js]. *)
Example documented_example :
  response_of (Server.serve Demo.ROOT_DIR Demo.site (Some "/app.js"))
  = {| header :=
         Some (200, [("Content-Type", "application/javascript; charset=utf-8")]);
       body := "console.log(1);"; finished := true |}
  /\ response_of (Server.serve Demo.ROOT_DIR Demo.site (Some "/missing.png"))
     = plain 404 "Not Found"
  /\ response_of (Server.serve Demo.ROOT_DIR Demo.site (Some ""))
     = plain 400 "Bad Request".
Proof. vm_compute. repeat split. Qed.

(** ** The content type *)

Lemma contentType_of_ext_table (ext : string) :
  Server.contentType_of_ext ext = mime_table ext.
Proof.
  unfold Server.contentType_of_ext, Server.MIME_TYPES, mime_table.
  cbn [list_to_map foldr fst snd uncurry].
  repeat match goal with
  | |- context [String.eqb ext ?k] =>
      destruct (String.eqb_spec ext k) as [-> | ?];
      [ vm_compute; reflexivity | rewrite lookup_insert_ne by congruence ]
  end.
  now rewrite lookup_empty.
Qed.

Lemma contentType_join_index_html (c rel : string) :
  rel = "index.html" \/ rel = "/index.html" ->
  Server.contentType_of (Path.join c rel) = "text/html; charset=utf-8".
Proof.
  intros Hrel.
  destruct (join_index_html c rel Hrel) as (pre & H & Hpre).
  unfold Server.contentType_of.
  rewrite H, (extname_index_html pre Hpre). reflexivity.
Qed.

Lemma contentType_index_html (c : string) :
  Server.contentType_of (index_of c) = "text/html; charset=utf-8".
Proof. apply contentType_join_index_html. now left. Qed.

(** ** One candidate *)

Lemma probe_file (fs : filesystem) (c : string) (w : world) :
  stat_of fs c = Stats RegularFile ->
  Server.probe fs c w = (logged w [CallStatSync c], Ok (Some c)).
Proof. intros H. now rewrite probe_eq, H. Qed.

Lemma probe_directory_index (fs : filesystem) (c : string) (w : world) :
  stat_of fs c = Stats Directory -> present fs (index_of c) ->
  Server.probe fs c w = (logged w (probe_calls fs c), Ok (Some (index_of c))).
Proof.
  intros H [k Hk]. unfold probe_calls. now rewrite probe_eq, H, Hk.
Qed.

Lemma probe_passes_over (fs : filesystem) (c : string) (w : world) :
  passes_over fs c ->
  Server.probe fs c w = (logged w (probe_calls fs c), Ok None).
Proof.
  intros [H | [H Hno]]; unfold probe_calls; rewrite probe_eq, H.
  - reflexivity.
  - destruct (stat_of fs (index_of c)) as [k|code] eqn:Hi; [| reflexivity].
    destruct Hno. now exists k.
Qed.

Lemma resolve_candidates (ROOT_DIR : string) (fs : filesystem)
    (url rel : string) (w : world) :
  Server.relativePath_of url = Some rel ->
  Server.resolveFilePath ROOT_DIR fs url w
  = Server.probe_all fs
      [ Path.join (Server.PUBLIC_DIR ROOT_DIR) rel; Path.join ROOT_DIR rel ] w.
Proof. intros H. unfold Server.resolveFilePath. now rewrite H. Qed.

(** ** The claims *)

(** C1 (defect of the code). The leading [../] and [..\] are removed
    only where a separator follows: a path that normalizes to [".."], or
    to [".."] after such prefixes, keeps it.  Joined to the root
    directory it names the parent, and when the root directory has no
    [index.html] the resolver returns the one of the parent, a file
    outside both base directories, which the handler serves.  This
    happens for [../..], for its backslash and percent-encoded forms and
    for the absolute-form request target [http://h/../../..]. *)
Theorem C1_parent_directory_escape :
  Server.relativePath_of "../.." = Some ".."
  /\ Server.relativePath_of "..\.." = Some ".."
  /\ Server.relativePath_of "..%2F.." = Some ".."
  /\ Server.relativePath_of "http://h/../../.." = Some ".."
  /\ Server.candidates_of Demo.ROOT_DIR ".." = ["/srv/app"; "/srv"]
  /\ snd (Server.resolveFilePath Demo.ROOT_DIR Demo.site "../.." start)
     = Ok (Some "/srv/index.html")
  /\ inside (Server.PUBLIC_DIR Demo.ROOT_DIR) "/srv/index.html" = false
  /\ inside Demo.ROOT_DIR "/srv/index.html" = false
  /\ response_of (Server.serve Demo.ROOT_DIR Demo.site (Some "http://h/../../.."))
     = {| header := Some (200, [("Content-Type", "text/html; charset=utf-8")]);
          body := "<h1>other site</h1>"; finished := true |}.
Proof. vm_compute. repeat split. Qed.

(** C2. For a request path that decodes, the resolver has exactly two
    candidates, the relative path under the public directory and then
    under the root directory, and goes through them in that order.  A
    regular file is returned at once (for the public candidate the only
    call made is its [statSync]: the root candidate is not looked at); a
    directory gives its [index.html] when that exists; a candidate that
    does not exist, or is a directory without [index.html], is passed
    over; and when both are passed over the resolver returns [null] and
    the handler answers 404 with the body [Not Found]. *)
Theorem C2_two_candidates_in_priority_order
    (ROOT_DIR : string) (fs : filesystem) (url rel : string) :
  Server.relativePath_of url = Some rel ->
  let c1 := Path.join (Server.PUBLIC_DIR ROOT_DIR) rel in
  let c2 := Path.join ROOT_DIR rel in
  let run := Server.resolveFilePath ROOT_DIR fs url start in
  Server.candidates_of ROOT_DIR rel = [c1; c2]
  /\ (stat_of fs c1 = Stats RegularFile ->
      run = (logged start [CallStatSync c1], Ok (Some c1)))
  /\ (stat_of fs c1 = Stats Directory -> present fs (index_of c1) ->
      run = (logged start (probe_calls fs c1), Ok (Some (index_of c1))))
  /\ (passes_over fs c1 -> stat_of fs c2 = Stats RegularFile ->
      run = (logged start (probe_calls fs c1 ++ [CallStatSync c2]),
             Ok (Some c2)))
  /\ (passes_over fs c1 ->
      stat_of fs c2 = Stats Directory -> present fs (index_of c2) ->
      run = (logged start (probe_calls fs c1 ++ probe_calls fs c2),
             Ok (Some (index_of c2))))
  /\ (passes_over fs c1 -> passes_over fs c2 ->
      run = (logged start (probe_calls fs c1 ++ probe_calls fs c2), Ok None)
      /\ (String.eqb url "" = false ->
          Server.serve ROOT_DIR fs (Some url)
          = ({| fs_calls := probe_calls fs c1 ++ probe_calls fs c2;
                res := plain 404 "Not Found" |}, Ok tt))).
Proof.
  intros Hrel c1 c2 run.
  assert (Hrun : run = Server.probe_all fs [c1; c2] start)
    by apply (resolve_candidates _ _ _ _ _ Hrel).
  split; [reflexivity |].
  rewrite Hrun, probe_all_cons.
  split; [| split; [| split; [| split]]].
  - intros H1. now rewrite (probe_file _ _ _ H1).
  - intros H1 Hi. now rewrite (probe_directory_index _ _ _ H1 Hi).
  - intros H1 H2. rewrite (probe_passes_over _ _ _ H1), probe_all_cons.
    now rewrite (probe_file _ _ _ H2), logged_logged.
  - intros H1 H2 Hi. rewrite (probe_passes_over _ _ _ H1), probe_all_cons.
    now rewrite (probe_directory_index _ _ _ H2 Hi), logged_logged.
  - intros H1 H2.
    assert (Hnone : Server.probe_all fs [c1; c2] start
              = (logged start (probe_calls fs c1 ++ probe_calls fs c2),
                 Ok None)).
    { rewrite probe_all_cons, (probe_passes_over _ _ _ H1), probe_all_cons.
      now rewrite (probe_passes_over _ _ _ H2), logged_logged. }
    rewrite probe_all_cons in Hnone. split; [exact Hnone |].
    intros Hurl.
    apply (serve_not_found ROOT_DIR fs url
             (logged start (probe_calls fs c1 ++ probe_calls fs c2)));
      [exact Hurl | | reflexivity].
    fold run. now rewrite Hrun, probe_all_cons.
Qed.

Lemma C2_witness :
  Server.relativePath_of "/app.js?v=2" = Some "/app.js"
  /\ Server.resolveFilePath Demo.ROOT_DIR Demo.site "/app.js?v=2" start
     = (logged start [CallStatSync "/srv/app/public/app.js"],
        Ok (Some "/srv/app/public/app.js")).
Proof.
  split; [reflexivity |].
  destruct (C2_two_candidates_in_priority_order
              Demo.ROOT_DIR Demo.site "/app.js?v=2" "/app.js" eq_refl)
    as (_ & Hfile & _).
  apply Hfile. reflexivity.
Defined.

(** C3 (defect of the code). For a directory the resolver only asks
    whether [index.html] exists, not whether it is a regular file: when
    [index.html] is itself a directory, the resolver returns it. *)
Theorem C3_index_may_be_a_directory :
  snd (Server.resolveFilePath Demo.ROOT_DIR Demo.site "/docs" start)
  = Ok (Some "/srv/app/public/docs/index.html")
  /\ stat_of Demo.site "/srv/app/public/docs/index.html" = Stats Directory.
Proof. vm_compute. split; reflexivity. Qed.

(** C4, as the design document states it, fails: the path [/%] does not
    decode and the answer is not 400. *)
Lemma C4_malformed_escape_not_400 :
  URI.decodeURIComponent (Server.before_query "/%") = None
  /\ status (response_of (Server.serve Demo.ROOT_DIR Demo.site (Some "/%")))
     <> Some 400.
Proof. split; [reflexivity | vm_compute; discriminate]. Qed.

(** C4, amended. For every request whose path, after the query string
    is removed, fails percent-decoding, the resolver throws before it
    looks at the file system and the handler answers 500 with the body
    [Internal Server Error]. *)
Theorem C4_malformed_escape_is_500
    (ROOT_DIR : string) (fs : filesystem) (url : string) :
  String.eqb url "" = false ->
  URI.decodeURIComponent (Server.before_query url) = None ->
  Server.serve ROOT_DIR fs (Some url)
  = ({| fs_calls := []; res := plain 500 "Internal Server Error" |}, Ok tt).
Proof.
  intros Hurl Hdec.
  apply (serve_throw ROOT_DIR fs url start URIError Hurl); [| reflexivity].
  unfold Server.resolveFilePath, Server.relativePath_of. now rewrite Hdec.
Qed.

Lemma C4_witness :
  String.eqb "/a%zz?x=1" "" = false
  /\ URI.decodeURIComponent (Server.before_query "/a%zz?x=1") = None
  /\ Server.serve Demo.ROOT_DIR Demo.site (Some "/a%zz?x=1")
     = ({| fs_calls := []; res := plain 500 "Internal Server Error" |}, Ok tt).
Proof.
  split; [reflexivity |]. split; [reflexivity |].
  apply (C4_malformed_escape_is_500 Demo.ROOT_DIR Demo.site "/a%zz?x=1");
    reflexivity.
Defined.

(** C5 (defect of the code). The handler stores the header of the 200
    response before the stream can report anything, so when the stream
    fails before any data the listener's [writeHead(500)] is a second
    header write: it throws, no 500 is sent and the response is left
    with the 200 header, an empty body and no end. *)
Theorem C5_stream_error_after_writeHead_200 :
  snd (Server.resolveFilePath Demo.ROOT_DIR Demo.site "/locked.txt" start)
  = Ok (Some "/srv/app/public/locked.txt")
  /\ stream_of Demo.site "/srv/app/public/locked.txt" = [StreamError]
  /\ Server.serve Demo.ROOT_DIR Demo.site (Some "/locked.txt")
     = ({| fs_calls := [CallStatSync "/srv/app/public/locked.txt";
                        CallCreateReadStream "/srv/app/public/locked.txt"];
           res := {| header :=
                       Some (200, [("Content-Type", "text/plain; charset=utf-8")]);
                     body := ""; finished := false |} |},
        Throw ERR_HTTP_HEADERS_SENT).
Proof. vm_compute. repeat split. Qed.

(** C6. When the public directory contains the regular file
    [index.html], a request for [/] gives what a request for
    [/index.html] gives: the same calls, the same status, content type
    and body, namely that file streamed as [text/html]. *)
Theorem C6_root_is_index_html (ROOT_DIR : string) (fs : filesystem) :
  let index := Path.join (Server.PUBLIC_DIR ROOT_DIR) "/index.html" in
  stat_of fs index = Stats RegularFile ->
  Server.serve ROOT_DIR fs (Some "/")
  = Server.serve ROOT_DIR fs (Some "/index.html")
  /\ header (response_of (Server.serve ROOT_DIR fs (Some "/")))
     = Some (200, [("Content-Type", "text/html; charset=utf-8")]).
Proof.
  intros index Hfile.
  assert (Hrun : Server.resolveFilePath ROOT_DIR fs "/" start
                 = (logged start [CallStatSync index], Ok (Some index))).
  { rewrite (resolve_candidates ROOT_DIR fs "/" "/index.html") by reflexivity.
    now rewrite probe_all_cons, (probe_file _ _ _ Hfile). }
  split.
  - reflexivity.
  - rewrite (serve_resolved_header ROOT_DIR fs "/" _ index eq_refl Hrun).
    unfold index. rewrite contentType_join_index_html; [reflexivity | now right].
Qed.

Lemma C6_witness :
  stat_of Demo.site (Path.join (Server.PUBLIC_DIR Demo.ROOT_DIR) "/index.html")
  = Stats RegularFile
  /\ Server.serve Demo.ROOT_DIR Demo.site (Some "/")
     = Server.serve Demo.ROOT_DIR Demo.site (Some "/index.html")
  /\ header (response_of (Server.serve Demo.ROOT_DIR Demo.site (Some "/")))
     = Some (200, [("Content-Type", "text/html; charset=utf-8")]).
Proof.
  split; [reflexivity |].
  apply (C6_root_is_index_html Demo.ROOT_DIR Demo.site). reflexivity.
Defined.

(** C7. When the resolver returns a file for a request, the response
    carries status 200 and the content type that the MIME table of the
    design document gives for the lower-cased extension of that file:
    the listed type for a listed extension, whatever its case, and
    [application/octet-stream] for every other one. *)
Theorem C7_content_type_from_extension
    (ROOT_DIR : string) (fs : filesystem) (url : string) (w : world)
    (filePath : string) :
  String.eqb url "" = false ->
  Server.resolveFilePath ROOT_DIR fs url start = (w, Ok (Some filePath)) ->
  header (response_of (Server.serve ROOT_DIR fs (Some url)))
  = Some (200, [("Content-Type",
                 mime_table (Str.toLowerCase (Path.extname filePath)))]).
Proof.
  intros Hurl Hrun.
  rewrite (serve_resolved_header _ _ _ _ _ Hurl Hrun).
  unfold Server.contentType_of. now rewrite contentType_of_ext_table.
Qed.

Lemma C7_witness :
  String.eqb "/LOGO.PNG" "" = false
  /\ Server.resolveFilePath Demo.ROOT_DIR Demo.site "/LOGO.PNG" start
     = (logged start [CallStatSync "/srv/app/public/LOGO.PNG"],
        Ok (Some "/srv/app/public/LOGO.PNG"))
  /\ header (response_of (Server.serve Demo.ROOT_DIR Demo.site (Some "/LOGO.PNG")))
     = Some (200, [("Content-Type", "image/png")]).
Proof.
  split; [reflexivity |]. split; [reflexivity |].
  apply (C7_content_type_from_extension Demo.ROOT_DIR Demo.site "/LOGO.PNG"
           (logged start [CallStatSync "/srv/app/public/LOGO.PNG"])
           "/srv/app/public/LOGO.PNG"); reflexivity.
Defined.

(** C8. A request without URL, or with the empty URL, is answered 400
    with the plain-text body [Bad Request] and nothing else happens:
    whatever the file system, no call into it is made, so the resolver
    (whose first effect is such a call or a thrown error) plays no part,
    and the answer is neither 404 nor 500. *)
Theorem C8_missing_or_empty_url_is_400
    (ROOT_DIR : string) (fs : filesystem) :
  Server.serve ROOT_DIR fs None
  = ({| fs_calls := []; res := plain 400 "Bad Request" |}, Ok tt)
  /\ Server.serve ROOT_DIR fs (Some "")
     = ({| fs_calls := []; res := plain 400 "Bad Request" |}, Ok tt).
Proof. split; reflexivity. Qed.

(** C9, as the design document states it, fails: the input ["0"] is
    numeric, and the port is 3000, not 0. *)
Lemma C9_zero_is_replaced :
  Num.parseInt10 "0" = Num.Int 0
  /\ Server.PORT (Some "0") = Num.Int 3000
  /\ Server.PORT (Some "0") <> claimed_port (Some "0").
Proof. repeat split. discriminate. Qed.

(** C9, amended. The listen port is the integer that [parseInt] reads
    from the [PORT] input when that integer is not zero; it is 3000 when
    the input is absent, when no integer can be read from it, and when
    the integer read is zero. *)
Theorem C9_port_or_default (env_PORT : option string) :
  (forall z : Z,
      Num.parseInt10 (Num.ToString env_PORT) = Num.Int z -> z <> 0%Z ->
      Server.PORT env_PORT = Num.Int z)
  /\ (Num.parseInt10 (Num.ToString env_PORT) = Num.NaN ->
      Server.PORT env_PORT = Num.Int 3000)
  /\ (Num.parseInt10 (Num.ToString env_PORT) = Num.Int 0 ->
      Server.PORT env_PORT = Num.Int 3000)
  /\ (env_PORT = None -> Server.PORT env_PORT = Num.Int 3000).
Proof.
  unfold Server.PORT, Num.or_else. repeat split.
  - intros z -> Hz. simpl. now destruct (Z.eqb_spec z 0).
  - now intros ->.
  - now intros ->.
  - now intros ->.
Qed.

Lemma C9_witness :
  Server.PORT (Some "8080") = Num.Int 8080
  /\ Server.PORT (Some "not a port") = Num.Int 3000
  /\ Server.PORT None = Num.Int 3000.
Proof.
  destruct (C9_port_or_default (Some "8080")) as (Hint & _).
  destruct (C9_port_or_default (Some "not a port")) as (_ & Hnan & _).
  destruct (C9_port_or_default None) as (_ & _ & _ & Habsent).
  split; [apply Hint; [reflexivity | discriminate] |].
  split; [apply Hnan; reflexivity | apply Habsent; reflexivity].
Defined.

(** C10. When the file returned for a request is the [index.html] of a
    candidate that is a directory, the content type is that of
    [index.html], [text/html; charset=utf-8], whatever extension the
    request path or the directory carries. *)
Theorem C10_directory_index_is_text_html
    (ROOT_DIR : string) (fs : filesystem) (url rel : string) (w : world)
    (candidate : string) :
  String.eqb url "" = false ->
  Server.relativePath_of url = Some rel ->
  In candidate (Server.candidates_of ROOT_DIR rel) ->
  stat_of fs candidate = Stats Directory ->
  Server.resolveFilePath ROOT_DIR fs url start
  = (w, Ok (Some (Path.join candidate "index.html"))) ->
  header (response_of (Server.serve ROOT_DIR fs (Some url)))
  = Some (200, [("Content-Type", "text/html; charset=utf-8")]).
Proof.
  intros Hurl _ _ _ Hrun.
  rewrite (serve_resolved_header _ _ _ _ _ Hurl Hrun).
  now rewrite contentType_join_index_html by now left.
Qed.

Lemma C10_witness :
  Path.extname "/foo.png" = ".png"
  /\ stat_of Demo.site "/srv/app/public/foo.png" = Stats Directory
  /\ header (response_of (Server.serve Demo.ROOT_DIR Demo.site (Some "/foo.png")))
     = Some (200, [("Content-Type", "text/html; charset=utf-8")]).
Proof.
  split; [reflexivity |]. split; [reflexivity |].
  apply (C10_directory_index_is_text_html Demo.ROOT_DIR Demo.site
           "/foo.png" "/foo.png"
           (logged start [CallStatSync "/srv/app/public/foo.png";
                          CallExistsSync "/srv/app/public/foo.png/index.html"])
           "/srv/app/public/foo.png").
  - reflexivity.
  - reflexivity.
  - left. reflexivity.
  - reflexivity.
  - reflexivity.
Defined.

(** * Further properties *)

(** ** Segments *)

Lemma split_no_slash (s : string) :
  no_slash s = true -> Str.split "/" s = [s].
Proof.
  induction s as [|c s IH]; [reflexivity |]. simpl.
  intros [Hc Hs]%andb_prop. unfold Str.is_slash in Hc.
  destruct (Ascii.eqb c "/"); [discriminate |]. now rewrite (IH Hs).
Qed.

Lemma split_pieces_no_slash (s : string) :
  Forall (fun seg => no_slash seg = true) (Str.split "/" s).
Proof.
  induction s as [|c s IH]; simpl; [now constructor |].
  destruct (Ascii.eqb c "/") eqn:Hc; [now constructor |].
  destruct (Str.split "/" s) as [|seg segs]; [now repeat constructor; simpl; unfold Str.is_slash; rewrite Hc|].
  inversion IH; subst. constructor; [| assumption].
  simpl. unfold Str.is_slash. now rewrite Hc.
Qed.

Lemma join_split (s : string) : Str.join_with "/" (Str.split "/" s) = s.
Proof.
  induction s as [|c s IH]; [reflexivity |]. simpl.
  destruct (Ascii.eqb_spec c "/") as [-> | Hc].
  - destruct (split_nonempty "/" s) as (seg & segs & H). rewrite H in *.
    change (Str.join_with "/" ("" :: seg :: segs))
      with ("" ++ "/" ++ Str.join_with "/" (seg :: segs)).
    now rewrite IH.
  - destruct (Str.split "/" s) as [|seg [|seg' segs]].
    + simpl in IH. now subst.
    + simpl in *. now subst.
    + change (Str.join_with "/" (String c seg :: seg' :: segs))
        with (String c (seg ++ "/" ++ Str.join_with "/" (seg' :: segs))).
      now rewrite <- IH.
Qed.

Lemma join_with_app (l1 l2 : list string) :
  l1 <> [] -> l2 <> [] ->
  Str.join_with "/" (l1 ++ l2)
  = Str.join_with "/" l1 ++ "/" ++ Str.join_with "/" l2.
Proof.
  intros H1 H2. induction l1 as [|x l1 IH]; [contradiction |].
  destruct l1 as [|y l1].
  - destruct l2; [contradiction | reflexivity].
  - change (Str.join_with "/" ((x :: y :: l1) ++ l2))
      with (x ++ "/" ++ Str.join_with "/" ((y :: l1) ++ l2)).
    rewrite IH by discriminate.
    change (Str.join_with "/" (x :: y :: l1))
      with (x ++ "/" ++ Str.join_with "/" (y :: l1)).
    now rewrite !append_assoc.
Qed.

Lemma split_join (l : list string) :
  l <> [] -> Forall (fun seg => no_slash seg = true) l ->
  Str.split "/" (Str.join_with "/" l) = l.
Proof.
  intros Hne Hl. induction l as [|x l IH]; [contradiction |].
  inversion Hl; subst. destruct l as [|y l].
  - now apply split_no_slash.
  - change (Str.join_with "/" (x :: y :: l))
      with (x ++ String "/" (Str.join_with "/" (y :: l))).
    rewrite split_append_sep, IH by (assumption || discriminate).
    now rewrite split_no_slash.
Qed.

Lemma rev_cons (c : ascii) (s : string) :
  Str.rev (String c s) = Str.rev s ++ String c "".
Proof. unfold Str.rev. simpl. now rewrite string_of_app. Qed.

Lemma starts_with_slash_app (a b : string) :
  a <> "" -> Str.starts_with_slash (a ++ b) = Str.starts_with_slash a.
Proof. destruct a; [contradiction | reflexivity]. Qed.

Lemma rev_nonempty (s : string) : s <> "" -> Str.rev s <> "".
Proof.
  destruct s as [|c s]; [contradiction |]. intros _. rewrite rev_cons.
  now destruct (Str.rev s).
Qed.

Lemma ends_with_slash_app (a b : string) :
  b <> "" -> Str.ends_with_slash (a ++ b) = Str.ends_with_slash b.
Proof.
  intros Hb. unfold Str.ends_with_slash.
  rewrite rev_append. now apply starts_with_slash_app, rev_nonempty.
Qed.

Lemma ends_with_slash_no_slash (s : string) :
  no_slash s = true -> Str.ends_with_slash s = false.
Proof.
  induction s as [|c s IH]; [reflexivity |]. simpl.
  intros [Hc Hs]%andb_prop. destruct s as [|c' s].
  - unfold Str.ends_with_slash. simpl. now destruct (Str.is_slash c).
  - change (String c (String c' s)) with (String c "" ++ String c' s).
    rewrite ends_with_slash_app by discriminate. now apply IH.
Qed.

(** A path built from pieces ends with a slash exactly when its last
    piece is empty. *)
Lemma ends_with_slash_of_segments (l : list string) :
  l <> [] -> Forall (fun seg => no_slash seg = true) l ->
  Str.ends_with_slash (of_segments l) = String.eqb (List.last l "") "".
Proof.
  intros Hne Hl. unfold of_segments.
  induction l as [|x l IH]; [contradiction |].
  inversion Hl; subst. destruct l as [|y l].
  - simpl Str.join_with. simpl List.last. destruct x as [|c x].
    + reflexivity.
    + rewrite ends_with_slash_app by discriminate.
      now rewrite ends_with_slash_no_slash.
  - change (Str.join_with "/" (x :: y :: l))
      with (x ++ "/" ++ Str.join_with "/" (y :: l)).
    change (List.last (x :: y :: l) "") with (List.last (y :: l) "").
    rewrite <- IH by (assumption || discriminate).
    rewrite <- (append_assoc "/" x).
    apply (ends_with_slash_app ("/" ++ x)).
    rewrite append_cons. discriminate.
Qed.

(** ** [normalizeString] on the pieces *)

Lemma step_segment (allow : bool) (stack : list string) (seg : string) :
  is_segment seg = true ->
  Path.normalize_step allow stack seg = seg :: stack.
Proof.
  unfold is_segment, Path.normalize_step.
  intros [[[H1 H2]%andb_prop H3]%andb_prop _]%andb_prop.
  apply negb_true_iff in H1, H2, H3. now rewrite H1, H2, H3.
Qed.

Lemma fold_segments (allow : bool) (l stack : list string) :
  Forall (fun seg => is_segment seg = true) l ->
  fold_left (Path.normalize_step allow) l stack = (List.rev l ++ stack)%list.
Proof.
  intros Hl. revert stack. induction Hl as [|x l Hx _ IH]; intros stack.
  - reflexivity.
  - simpl. rewrite step_segment by assumption. rewrite IH.
    now rewrite <- app_assoc.
Qed.

(** For an absolute path the stack only ever holds proper components. *)
Lemma step_keeps_segments (stack : list string) (seg : string) :
  no_slash seg = true ->
  Forall (fun s => is_segment s = true) stack ->
  Forall (fun s => is_segment s = true) (Path.normalize_step false stack seg).
Proof.
  intros Hseg Hstack. unfold Path.normalize_step.
  destruct (String.eqb seg "") eqn:H1; [assumption |].
  destruct (String.eqb seg ".") eqn:H2; [assumption |]. simpl.
  destruct (String.eqb seg "..") eqn:H3.
  - destruct Hstack as [|top below Htop Hbelow]; [constructor |].
    destruct (String.eqb top ".."); [now constructor | assumption].
  - constructor; [| assumption].
    unfold is_segment. now rewrite H1, H2, H3, Hseg.
Qed.

Lemma fold_keeps_segments (l stack : list string) :
  Forall (fun seg => no_slash seg = true) l ->
  Forall (fun s => is_segment s = true) stack ->
  Forall (fun s => is_segment s = true)
    (fold_left (Path.normalize_step false) l stack).
Proof.
  intros Hl. revert stack. induction Hl as [|x l Hx _ IH]; intros stack Hs.
  - exact Hs.
  - simpl. apply IH. now apply step_keeps_segments.
Qed.

Lemma join_segments_nonempty (l : list string) :
  l <> [] -> Forall (fun s => is_segment s = true) l ->
  String.eqb (Str.join_with "/" l) "" = false.
Proof.
  intros Hne Hl. destruct l as [|x l]; [contradiction |].
  inversion Hl as [|? ? Hx _]; subst.
  destruct x as [|c x]; [discriminate |]. now destruct l.
Qed.

(** [path.normalize] on an absolute path, piece by piece. *)
Lemma normalize_of_segments (l : list string) :
  l <> [] -> Forall (fun seg => no_slash seg = true) l ->
  Path.normalize (of_segments l)
  = match List.rev (fold_left (Path.normalize_step false) l []) with
    | [] => "/"
    | kept => of_segments kept
              ++ (if String.eqb (List.last l "") "" then "/" else "")
    end.
Proof.
  intros Hne Hl. unfold Path.normalize.
  rewrite (ends_with_slash_of_segments l Hne Hl).
  change (String.eqb (of_segments l) "") with false.
  change (Str.starts_with_slash (of_segments l)) with true.
  cbv zeta. unfold Path.normalizeString.
  change (Str.split "/" (of_segments l))
    with (Str.split "/" ("" ++ String "/" (Str.join_with "/" l))).
  rewrite split_append_sep, (split_join l Hne Hl).
  change (fold_left (Path.normalize_step (negb true)) (Str.split "/" "" ++ l) [])
    with (fold_left (Path.normalize_step false) l []).
  assert (Hk : Forall (fun s => is_segment s = true)
                 (List.rev (fold_left (Path.normalize_step false) l []))).
  { apply List.Forall_rev, fold_keeps_segments; [exact Hl | constructor]. }
  destruct (List.rev (fold_left (Path.normalize_step false) l [])) as [|k ks].
  - reflexivity.
  - rewrite join_segments_nonempty by (assumption || discriminate).
    unfold of_segments. now rewrite append_assoc.
Qed.

Lemma loose_no_slash (l : list string) :
  Forall (fun s => loose s = true) l ->
  Forall (fun s => no_slash s = true) l.
Proof.
  apply List.Forall_impl. intros s. unfold loose, is_segment.
  intros [H | H]%orb_prop.
  - now apply andb_prop in H as [_ H].
  - apply String.eqb_eq in H. now subst.
Qed.

Lemma fold_loose (allow : bool) (l stack : list string) :
  Forall (fun s => loose s = true) l ->
  fold_left (Path.normalize_step allow) l stack
  = (List.rev (List.filter is_segment l) ++ stack)%list.
Proof.
  intros Hl. revert stack. induction Hl as [|x l Hx _ IH]; intros stack.
  - reflexivity.
  - simpl. destruct (is_segment x) eqn:Hseg.
    + rewrite step_segment by assumption. rewrite IH. simpl.
      now rewrite <- app_assoc.
    + unfold loose in Hx. rewrite Hseg in Hx. apply String.eqb_eq in Hx.
      subst x. apply IH.
Qed.

Lemma normalize_loose (l : list string) :
  l <> [] -> Forall (fun s => loose s = true) l ->
  Path.normalize (of_segments l)
  = match List.filter is_segment l with
    | [] => "/"
    | kept => of_segments kept
              ++ (if String.eqb (List.last l "") "" then "/" else "")
    end.
Proof.
  intros Hne Hl.
  rewrite (normalize_of_segments l Hne (loose_no_slash l Hl)).
  rewrite (fold_loose false l [] Hl), app_nil_r, rev_involutive.
  reflexivity.
Qed.

Lemma filter_segments (l : list string) :
  Forall (fun s => is_segment s = true) l -> List.filter is_segment l = l.
Proof.
  induction 1 as [|x l Hx _ IH]; [reflexivity |]. simpl. now rewrite Hx, IH.
Qed.

Lemma segments_loose (l : list string) :
  Forall (fun s => is_segment s = true) l ->
  Forall (fun s => loose s = true) l.
Proof. apply List.Forall_impl. intros s H. unfold loose. now rewrite H. Qed.

Lemma last_segment_nonempty (l : list string) :
  l <> [] -> Forall (fun s => is_segment s = true) l ->
  String.eqb (List.last l "") "" = false.
Proof.
  intros Hne Hl. induction Hl as [|x l Hx Hl IH]; [contradiction |].
  destruct l as [|y l].
  - simpl. unfold is_segment in Hx. now destruct (String.eqb x "").
  - apply IH. discriminate.
Qed.

Lemma last_app_nonempty (l1 l2 : list string) (d : string) :
  l2 <> [] -> List.last (l1 ++ l2)%list d = List.last l2 d.
Proof.
  intros H2. induction l1 as [|x l1 IH]; [reflexivity |].
  simpl. rewrite IH. destruct (l1 ++ l2)%list eqn:E; [| reflexivity].
  now destruct l1, l2.
Qed.

Lemma of_segments_trailing (l : list string) (slash : bool) :
  l <> [] ->
  of_segments (l ++ trailing slash)%list
  = of_segments l ++ (if slash then "/" else "").
Proof.
  intros Hne. unfold of_segments. destruct slash; simpl trailing.
  - rewrite join_with_app by (assumption || discriminate).
    now rewrite append_assoc.
  - now rewrite app_nil_r, !append_nil_r.
Qed.

Lemma last_trailing (l : list string) (slash : bool) :
  l <> [] -> Forall (fun s => is_segment s = true) l ->
  String.eqb (List.last (l ++ trailing slash)%list "") "" = slash.
Proof.
  intros Hne Hl. destruct slash; simpl trailing.
  - now rewrite last_last.
  - rewrite app_nil_r. now apply last_segment_nonempty.
Qed.

(** Joining a normalized absolute base with a normalized absolute
    relative path puts the two one after the other. *)
Lemma join_of_segments (bs ss : list string) (slash : bool) :
  bs <> [] -> ss <> [] ->
  Forall (fun s => is_segment s = true) bs ->
  Forall (fun s => is_segment s = true) ss ->
  Path.join (of_segments bs) (of_segments (ss ++ trailing slash)%list)
  = of_segments ((bs ++ ss) ++ trailing slash)%list.
Proof.
  intros Hb Hs Fb Fs.
  set (rel := (ss ++ trailing slash)%list).
  assert (Hrel : rel <> []) by (unfold rel; now destruct ss).
  assert (Hjoin : Path.join (of_segments bs) (of_segments rel)
                  = Path.normalize (of_segments (bs ++ "" :: rel)%list)).
  { unfold of_segments at 3.
    rewrite join_with_app by (assumption || discriminate).
    destruct rel as [|r rel'] eqn:E; [contradiction |].
    change (Str.join_with "/" ("" :: r :: rel'))
      with ("" ++ "/" ++ Str.join_with "/" (r :: rel')).
    unfold Path.join, of_segments.
    rewrite !append_cons. now rewrite !append_assoc. }
  rewrite Hjoin, normalize_loose.
  - rewrite List.filter_app. simpl List.filter. unfold rel.
    rewrite List.filter_app, !filter_segments by assumption.
    assert (List.filter is_segment (trailing slash) = []) as ->
      by now destruct slash.
    rewrite app_nil_r.
    assert (Hl : List.last (bs ++ "" :: ss ++ trailing slash)%list ""
                 = List.last (ss ++ trailing slash)%list "").
    { change (bs ++ "" :: ss ++ trailing slash)%list
        with (bs ++ [""] ++ (ss ++ trailing slash))%list.
      rewrite app_assoc. apply last_app_nonempty. exact Hrel. }
    rewrite Hl, last_trailing by assumption.
    destruct (bs ++ ss)%list eqn:E; [now destruct bs |]. rewrite <- E.
    symmetry. apply of_segments_trailing. rewrite E. discriminate.
  - now destruct bs.
  - apply Forall_app. split; [now apply segments_loose |].
    constructor; [reflexivity |]. apply Forall_app. split.
    + now apply segments_loose.
    + destruct slash; simpl; repeat constructor.
Qed.

Lemma segment_nonempty (x : string) :
  is_segment x = true -> exists c x', x = String c x'.
Proof. destruct x as [|c x']; [discriminate | now eexists _, _]. Qed.

(** Joining one more component to a normalized absolute path. *)
Lemma join_one_segment (cs : list string) (slash : bool) (x : string) :
  cs <> [] ->
  Forall (fun s => is_segment s = true) cs ->
  is_segment x = true ->
  Path.join (of_segments (cs ++ trailing slash)%list) x
  = of_segments (cs ++ [x])%list.
Proof.
  intros Hc Fc Hx.
  set (base := (cs ++ trailing slash)%list).
  assert (Hbase : base <> []) by (unfold base; now destruct cs).
  assert (Hjoin : Path.join (of_segments base) x
                  = Path.normalize (of_segments (base ++ [x])%list)).
  { unfold of_segments at 2.
    rewrite join_with_app by (assumption || discriminate).
    destruct (segment_nonempty x Hx) as (c & x' & ->).
    unfold Path.join, of_segments. rewrite !append_cons.
    now rewrite !append_assoc. }
  rewrite Hjoin, normalize_loose.
  - unfold base. rewrite !List.filter_app, filter_segments by assumption.
    assert (List.filter is_segment (trailing slash) = []) as ->
      by now destruct slash.
    simpl List.filter. rewrite Hx, app_nil_r.
    rewrite last_last.
    assert (String.eqb x "" = false) as ->
      by (destruct (segment_nonempty x Hx) as (c & x' & ->); reflexivity).
    destruct (cs ++ [x])%list eqn:E; [now destruct cs |].
    now rewrite append_nil_r.
  - now destruct base.
  - apply Forall_app. split.
    + unfold base. apply Forall_app. split; [now apply segments_loose |].
      destruct slash; simpl; repeat constructor.
    + constructor; [| constructor]. unfold loose. now rewrite Hx.
Qed.

(** ** Request paths that start with a slash *)

Lemma before_query_slash (url : string) :
  Str.starts_with_slash url = true ->
  exists x, Server.before_query url = String "/" x.
Proof.
  destruct url as [|c url]; [discriminate |]. simpl. unfold Str.is_slash.
  intros ->%Ascii.eqb_eq. unfold Server.before_query. simpl.
  destruct (split_nonempty "?" url) as (seg & segs & ->). now eexists.
Qed.

Lemma decode_slash (x d : string) :
  URI.decodeURIComponent (String "/" x) = Some d ->
  exists d', d = String "/" d'.
Proof.
  unfold URI.decodeURIComponent. simpl.
  destruct (URI.tokens x) as [ts|]; [| discriminate]. simpl.
  destruct (URI.decode_tokens ts) as [d'|]; [| discriminate].
  intros [= <-]. now eexists.
Qed.

Lemma strip_absolute (s : string) :
  Server.strip_leading_parents (String "/" s) = String "/" s.
Proof. destruct s as [|c1 [|c2 r]]; reflexivity. Qed.

(** The relative path of a request that starts with a slash is a
    normalized absolute path: proper components only, with or without a
    trailing slash, and at least one component. *)
Lemma relativePath_origin_form (url rel : string) :
  Str.starts_with_slash url = true ->
  Server.relativePath_of url = Some rel ->
  exists (ss : list string) (slash : bool),
    ss <> [] /\ Forall (fun s => is_segment s = true) ss
    /\ rel = of_segments (ss ++ trailing slash)%list.
Proof.
  intros Hurl. unfold Server.relativePath_of.
  destruct (before_query_slash url Hurl) as (x & ->).
  destruct (URI.decodeURIComponent (String "/" x)) as [d|] eqn:Hd;
    [| discriminate].
  destruct (decode_slash x d Hd) as (d' & ->).
  assert (Hd' : String "/" d' = of_segments (Str.split "/" d'))
    by (unfold of_segments; now rewrite join_split).
  rewrite Hd'.
  destruct (split_nonempty "/" d') as (seg & segs & Hsplit).
  rewrite normalize_of_segments;
    [| rewrite Hsplit; discriminate | apply split_pieces_no_slash].
  set (l := Str.split "/" d').
  assert (Hk : Forall (fun s => is_segment s = true)
                 (List.rev (fold_left (Path.normalize_step false) l []))).
  { apply List.Forall_rev, fold_keeps_segments;
      [apply split_pieces_no_slash | constructor]. }
  destruct (List.rev (fold_left (Path.normalize_step false) l []))
    as [|k ks] eqn:Hkept.
  - intros [= <-]. exists ["index.html"], false.
    repeat split; [discriminate | now repeat constructor].
  - set (slash := String.eqb (List.last l "") "").
    rewrite <- (of_segments_trailing (k :: ks) slash) by discriminate.
    unfold of_segments at 1 2. rewrite !append_cons, strip_absolute.
    assert (String.eqb (String "/" ("" ++ Str.join_with "/" ((k :: ks) ++ trailing slash))) "/" = false) as ->.
    { change ("" ++ ?s) with s.
      inversion Hk as [|? ? Hkseg _]; subst.
      destruct (segment_nonempty k Hkseg) as (c & k' & ->).
      destruct ks, slash; reflexivity. }
    intros [= <-]. exists (k :: ks), slash.
    repeat split; [discriminate | exact Hk].
Qed.

Lemma prefix_append (a b : string) : String.prefix a (a ++ b) = true.
Proof.
  induction a as [|c a IH]; [now destruct b |].
  rewrite append_cons. simpl. now destruct (ascii_dec c c).
Qed.

Lemma of_segments_app (l1 l2 : list string) :
  l1 <> [] -> l2 <> [] ->
  of_segments (l1 ++ l2)%list = of_segments l1 ++ of_segments l2.
Proof.
  intros H1 H2. unfold of_segments.
  now rewrite join_with_app, !append_assoc by assumption.
Qed.

Lemma inside_of_segments (rs more : list string) :
  rs <> [] -> more <> [] ->
  inside (of_segments rs) (of_segments (rs ++ more)%list) = true.
Proof.
  intros Hr Hm. unfold inside. rewrite of_segments_app by assumption.
  set (base := of_segments rs). unfold of_segments.
  rewrite <- (append_assoc base "/"), prefix_append. apply orb_true_r.
Qed.

Lemma PUBLIC_DIR_of_segments (rs : list string) :
  rs <> [] -> Forall (fun s => is_segment s = true) rs ->
  Server.PUBLIC_DIR (of_segments rs) = of_segments (rs ++ ["public"])%list.
Proof.
  intros Hr Fr. unfold Server.PUBLIC_DIR.
  rewrite <- (app_nil_r rs) at 1.
  now apply (join_one_segment rs false "public").
Qed.

Lemma candidates_of_segments
    (rs : list string) (url rel : string) :
  rs <> [] -> Forall (fun s => is_segment s = true) rs ->
  Str.starts_with_slash url = true ->
  Server.relativePath_of url = Some rel ->
  Server.candidates_of (of_segments rs) rel
  = [ of_segments rs ++ "/public" ++ rel; of_segments rs ++ rel ].
Proof.
  intros Hr Fr Hurl Hrel.
  destruct (relativePath_origin_form url rel Hurl Hrel)
    as (ss & slash & Hs & Fs & ->).
  assert (Hrelne : (ss ++ trailing slash)%list <> []) by now destruct ss.
  unfold Server.candidates_of.
  rewrite (PUBLIC_DIR_of_segments rs Hr Fr).
  rewrite !join_of_segments;
    try assumption; try (now destruct rs);
    try (apply Forall_app; split; [assumption | now repeat constructor]).
  rewrite <- !app_assoc.
  rewrite (of_segments_app rs) by (assumption || discriminate).
  rewrite (of_segments_app rs (ss ++ trailing slash)) by assumption.
  change (["public"] ++ ss ++ trailing slash)%list
    with (["public"] ++ (ss ++ trailing slash))%list.
  rewrite (of_segments_app ["public"]) by (assumption || discriminate).
  reflexivity.
Qed.

Lemma resolved_inside_segments
    (rs : list string) (fs : filesystem) (url : string)
    (w w' : world) (p : string) :
  rs <> [] -> Forall (fun s => is_segment s = true) rs ->
  Str.starts_with_slash url = true ->
  Server.resolveFilePath (of_segments rs) fs url w = (w', Ok (Some p)) ->
  inside (of_segments rs) p = true.
Proof.
  intros Hr Fr Hurl Hrun.
  destruct (resolve_sound _ _ _ _ _ _ Hrun)
    as (_ & _ & rel & c & Hrel & Hin & Hp).
  destruct (relativePath_origin_form url rel Hurl Hrel)
    as (ss & slash & Hs & Fs & ->).
  unfold Server.candidates_of in Hin.
  rewrite (PUBLIC_DIR_of_segments rs Hr Fr) in Hin.
  rewrite !join_of_segments in Hin;
    try assumption; try (now destruct rs);
    try (apply Forall_app; split; [assumption | now repeat constructor]).
  assert (Hc : exists more, more <> []
             /\ Forall (fun s => is_segment s = true) more
             /\ c = of_segments ((rs ++ more) ++ trailing slash)%list).
  { destruct Hin as [<- | [<- | []]].
    - exists (["public"] ++ ss)%list. rewrite !app_assoc.
      repeat split; [discriminate |].
      apply Forall_app. split; [now repeat constructor | assumption].
    - exists ss. now repeat split. }
  destruct Hc as (more & Hm & Fm & ->).
  destruct Hp as [[_ ->] | (_ & -> & _)].
  - rewrite <- app_assoc. apply inside_of_segments; [assumption |].
    now destruct more.
  - unfold index_of. rewrite join_one_segment.
    + rewrite <- app_assoc. apply inside_of_segments; [assumption |].
      now destruct more.
    + now destruct rs.
    + apply Forall_app. now split.
    + reflexivity.
Qed.

(** ** The resolver and the response *)

Lemma resolve_keeps_response (ROOT_DIR : string) (fs : filesystem)
    (url : string) (w w' : world) (r : result (option string)) :
  Server.resolveFilePath ROOT_DIR fs url w = (w', r) -> res w' = res w.
Proof.
  unfold Server.resolveFilePath.
  destruct (Server.relativePath_of url) as [rel|].
  - intros H. now apply probe_all_sound in H as [H _].
  - now intros [= <- _].
Qed.

(** ** Streams *)

Lemma pipe_data (chunks : list string) (rest : list stream_event)
    (calls : list fs_call) (h : nat * list (string * string)) (b : string) :
  Server.pipe (map Data chunks ++ rest)
    {| fs_calls := calls;
       res := {| header := Some h; body := b; finished := false |} |}
  = Server.pipe rest
      {| fs_calls := calls;
         res := {| header := Some h; body := b ++ all_data chunks;
                   finished := false |} |}.
Proof.
  revert b. induction chunks as [|c chunks IH]; intros b.
  - simpl. now rewrite append_nil_r.
  - change (Server.pipe (map Data (c :: chunks) ++ rest)
              {| fs_calls := calls;
                 res := {| header := Some h; body := b; finished := false |} |})
      with (Server.pipe (map Data chunks ++ rest)
              {| fs_calls := calls;
                 res := {| header := Some h; body := b ++ c;
                           finished := false |} |}).
    rewrite IH. simpl all_data. now rewrite append_assoc.
Qed.

Lemma pipe_throws (events : list stream_event) (w : world) (e : exn) :
  snd (Server.pipe events w) = Throw e ->
  e = ERR_HTTP_HEADERS_SENT /\ In StreamError events.
Proof.
  revert w. induction events as [|[chunk| |] events IH]; intros w.
  - discriminate.
  - change (Server.pipe (Data chunk :: events) w)
      with (Server.pipe events (fst (Res.write chunk w))).
    intros H. destruct (IH _ H) as [He Hin]. split; [exact He | now right].
  - discriminate.
  - simpl. unfold Server.on_stream_error, mbind, M_bind, bind.
    unfold Res.writeHead, bind, get_res.
    destruct (header (res w)); simpl.
    + intros [= <-]. split; [reflexivity | now left].
    + discriminate.
Qed.

Lemma forallb_Forall (f : string -> bool) (l : list string) :
  forallb f l = true -> Forall (fun s => f s = true) l.
Proof.
  induction l as [|x l IH]; simpl; [constructor |].
  intros [Hx Hl]%andb_prop. constructor; auto.
Qed.

Lemma Forall_forallb (f : string -> bool) (l : list string) :
  Forall (fun s => f s = true) l -> forallb f l = true.
Proof. induction 1 as [|x l Hx _ IH]; simpl; [reflexivity | now rewrite Hx]. Qed.

(** ** Further properties of the resolver *)

(** X1. When the root directory is a normalized absolute path and the
    request path starts with a slash, whatever follows (dot segments,
    repeated slashes, percent-encoded or backslash forms), every path
    the resolver returns lies below the root directory. *)
Theorem X1_origin_form_stays_inside
    (r : string) (rs : list string) (fs : filesystem) (url : string)
    (w w' : world) (p : string) :
  forallb is_segment (r :: rs) = true ->
  Str.starts_with_slash url = true ->
  Server.resolveFilePath (of_segments (r :: rs)) fs url w
  = (w', Ok (Some p)) ->
  inside (of_segments (r :: rs)) p = true.
Proof.
  intros Hroot Hurl Hrun.
  apply (resolved_inside_segments (r :: rs) fs url w w' p);
    [discriminate | now apply forallb_Forall | exact Hurl | exact Hrun].
Qed.

Lemma X1_witness :
  Server.resolveFilePath "/srv/app" Demo.site "/a/../%2e%2e/..%2Fapp.js?x" start
  = (logged start [CallStatSync "/srv/app/public/app.js"],
     Ok (Some "/srv/app/public/app.js"))
  /\ inside "/srv/app" "/srv/app/public/app.js" = true.
Proof.
  split; [reflexivity |].
  apply (X1_origin_form_stays_inside "srv" ["app"] Demo.site
           "/a/../%2e%2e/..%2Fapp.js?x" start
           (logged start [CallStatSync "/srv/app/public/app.js"]));
    reflexivity.
Defined.

(** X2. Under the same conditions the two candidates are the public
    directory and the root directory, each followed by the relative
    path as it stands: [path.join] has no [..] left to resolve. *)
Theorem X2_origin_form_candidates
    (r : string) (rs : list string) (url rel : string) :
  forallb is_segment (r :: rs) = true ->
  Str.starts_with_slash url = true ->
  Server.relativePath_of url = Some rel ->
  Server.candidates_of (of_segments (r :: rs)) rel
  = [ of_segments (r :: rs) ++ "/public" ++ rel;
      of_segments (r :: rs) ++ rel ].
Proof.
  intros Hroot Hurl Hrel.
  apply (candidates_of_segments (r :: rs) url rel);
    [discriminate | now apply forallb_Forall | exact Hurl | exact Hrel].
Qed.

Lemma X2_witness :
  Server.candidates_of "/srv/app" "/docs/"
  = ["/srv/app/public/docs/"; "/srv/app/docs/"].
Proof.
  apply (X2_origin_form_candidates "srv" ["app"] "/x/..//docs/./?q=%" "/docs/");
    reflexivity.
Defined.

(** X3. The relative path of a request that starts with a slash is
    itself absolute and made of proper components only (none empty,
    none ["."] or [".."]), at least one, with or without a trailing
    slash. *)
Theorem X3_origin_form_relative_path (url rel : string) :
  Str.starts_with_slash url = true ->
  Server.relativePath_of url = Some rel ->
  exists (s : string) (ss : list string) (slash : bool),
    forallb is_segment (s :: ss) = true
    /\ rel = of_segments (s :: ss) ++ (if slash then "/" else "").
Proof.
  intros Hurl Hrel.
  destruct (relativePath_origin_form url rel Hurl Hrel)
    as ([|s ss] & slash & Hne & Fs & ->); [contradiction |].
  exists s, ss, slash. split.
  - now apply Forall_forallb.
  - now apply of_segments_trailing.
Qed.

Lemma X3_witness :
  exists (s : string) (ss : list string) (slash : bool),
    forallb is_segment (s :: ss) = true
    /\ "/a/c/" = of_segments (s :: ss) ++ (if slash then "/" else "").
Proof.
  apply (X3_origin_form_relative_path "/a/./b/../%2e%2e/a//c/" "/a/c/");
    reflexivity.
Defined.

(** X4. Every path the resolver returns is not empty and names an entry
    that [statSync] finds: a candidate that is a regular file, or the
    [index.html] of a candidate that is a directory.  The resolver
    itself writes nothing to the response. *)
Theorem X4_resolved_path_exists
    (ROOT_DIR : string) (fs : filesystem) (url : string)
    (w w' : world) (p : string) :
  Server.resolveFilePath ROOT_DIR fs url w = (w', Ok (Some p)) ->
  present fs p /\ String.eqb p "" = false /\ res w' = res w
  /\ exists rel c,
       Server.relativePath_of url = Some rel
       /\ In c (Server.candidates_of ROOT_DIR rel)
       /\ ((stat_of fs c = Stats RegularFile /\ p = c)
           \/ (stat_of fs c = Stats Directory /\ p = index_of c)).
Proof.
  intros Hrun.
  destruct (resolve_sound _ _ _ _ _ _ Hrun)
    as (Hres & Hp & rel & c & Hrel & Hin & Hc).
  split; [| split; [exact Hp | split; [exact Hres |]]].
  - destruct Hc as [[Hfile ->] | (_ & _ & Hk)]; [now exists RegularFile | exact Hk].
  - exists rel, c. split; [exact Hrel | split; [exact Hin |]].
    destruct Hc as [Hc | (Hd & Hi & _)]; [now left | now right].
Qed.

Lemma X4_witness :
  present Demo.site "/srv/app/public/foo.png/index.html".
Proof.
  apply (X4_resolved_path_exists Demo.ROOT_DIR Demo.site "/foo.png" start
           (logged start [CallStatSync "/srv/app/public/foo.png";
                          CallExistsSync "/srv/app/public/foo.png/index.html"])
           "/srv/app/public/foo.png/index.html").
  reflexivity.
Defined.

(** X5. The first ['?'] and everything after it play no part: a request
    for a non-empty path followed by a query string is served exactly
    as the request for the path alone, whatever the query holds. *)
Theorem X5_query_string_ignored
    (ROOT_DIR : string) (fs : filesystem) (path query : string) :
  String.eqb path "" = false ->
  Server.serve ROOT_DIR fs (Some (path ++ "?" ++ query))
  = Server.serve ROOT_DIR fs (Some path).
Proof.
  intros Hpath.
  assert (Hq : Server.before_query (path ++ "?" ++ query)
               = Server.before_query path).
  { unfold Server.before_query.
    change (path ++ "?" ++ query) with (path ++ String "?" query).
    rewrite split_append_sep.
    now destruct (split_nonempty "?" path) as (seg & segs & ->). }
  assert (Hrun : Server.resolveFilePath ROOT_DIR fs (path ++ "?" ++ query)
                 = Server.resolveFilePath ROOT_DIR fs path).
  { unfold Server.resolveFilePath, Server.relativePath_of. now rewrite Hq. }
  unfold Server.serve, Server.handler. simpl. rewrite Hrun, Hpath.
  now destruct path.
Qed.

Lemma X5_witness :
  Server.serve Demo.ROOT_DIR Demo.site (Some "/app.js?v=%zz&../..")
  = Server.serve Demo.ROOT_DIR Demo.site (Some "/app.js").
Proof.
  apply (X5_query_string_ignored Demo.ROOT_DIR Demo.site "/app.js" "v=%zz&../..").
  reflexivity.
Defined.

Lemma probe_error (fs : filesystem) (c : string) (w : world) (code : string) :
  stat_of fs c = StatError code -> String.eqb code "ENOENT" = false ->
  Server.probe fs c w = (logged w [CallStatSync c], Throw (SystemError code)).
Proof. intros H Hcode. now rewrite probe_eq, H, Hcode. Qed.

Lemma probe_other (fs : filesystem) (c : string) (w : world) :
  stat_of fs c = Stats OtherEntry ->
  Server.probe fs c w = (logged w [CallStatSync c], Ok None).
Proof. intros H. now rewrite probe_eq, H. Qed.

(** X6. A candidate whose [statSync] fails with anything but [ENOENT]
    ends the search: the error leaves the resolver, no further
    candidate is looked at, and the handler answers 500 with the body
    [Internal Server Error]. *)
Theorem X6_stat_error_is_500
    (ROOT_DIR : string) (fs : filesystem) (url rel code : string) :
  String.eqb url "" = false ->
  Server.relativePath_of url = Some rel ->
  String.eqb code "ENOENT" = false ->
  let c1 := Path.join (Server.PUBLIC_DIR ROOT_DIR) rel in
  let c2 := Path.join ROOT_DIR rel in
  (stat_of fs c1 = StatError code ->
   Server.serve ROOT_DIR fs (Some url)
   = ({| fs_calls := [CallStatSync c1];
         res := plain 500 "Internal Server Error" |}, Ok tt))
  /\ (passes_over fs c1 -> stat_of fs c2 = StatError code ->
      Server.serve ROOT_DIR fs (Some url)
      = ({| fs_calls := probe_calls fs c1 ++ [CallStatSync c2];
            res := plain 500 "Internal Server Error" |}, Ok tt)).
Proof.
  intros Hurl Hrel Hcode c1 c2. split.
  - intros H1.
    apply (serve_throw ROOT_DIR fs url (logged start [CallStatSync c1])
             (SystemError code) Hurl); [| reflexivity].
    rewrite (resolve_candidates _ _ _ _ _ Hrel), probe_all_cons.
    now rewrite (probe_error _ _ _ _ H1 Hcode).
  - intros H1 H2.
    apply (serve_throw ROOT_DIR fs url
             (logged start (probe_calls fs c1 ++ [CallStatSync c2]))
             (SystemError code) Hurl); [| reflexivity].
    rewrite (resolve_candidates _ _ _ _ _ Hrel), probe_all_cons.
    rewrite (probe_passes_over _ _ _ H1), probe_all_cons.
    now rewrite (probe_error _ _ _ _ H2 Hcode), logged_logged.
Qed.

(** X7. A candidate that exists but is neither a regular file nor a
    directory (a socket, a FIFO, a device) is passed over like a
    missing one: the root candidate is tried next, and when it is of
    that kind too the answer is 404. *)
Theorem X7_other_entries_are_skipped
    (ROOT_DIR : string) (fs : filesystem) (url rel : string) :
  String.eqb url "" = false ->
  Server.relativePath_of url = Some rel ->
  let c1 := Path.join (Server.PUBLIC_DIR ROOT_DIR) rel in
  let c2 := Path.join ROOT_DIR rel in
  stat_of fs c1 = Stats OtherEntry ->
  (stat_of fs c2 = Stats RegularFile ->
   Server.resolveFilePath ROOT_DIR fs url start
   = (logged start [CallStatSync c1; CallStatSync c2], Ok (Some c2)))
  /\ (stat_of fs c2 = Stats OtherEntry ->
      Server.serve ROOT_DIR fs (Some url)
      = ({| fs_calls := [CallStatSync c1; CallStatSync c2];
            res := plain 404 "Not Found" |}, Ok tt)).
Proof.
  intros Hurl Hrel c1 c2 H1. split; intros H2.
  - rewrite (resolve_candidates _ _ _ _ _ Hrel), probe_all_cons.
    rewrite (probe_other _ _ _ H1), probe_all_cons.
    now rewrite (probe_file _ _ _ H2), logged_logged.
  - apply (serve_not_found ROOT_DIR fs url
             (logged start [CallStatSync c1; CallStatSync c2]) Hurl);
      [| reflexivity].
    rewrite (resolve_candidates _ _ _ _ _ Hrel), probe_all_cons.
    rewrite (probe_other _ _ _ H1), probe_all_cons.
    now rewrite (probe_other _ _ _ H2), logged_logged.
Qed.

(** ** Further properties of the handler *)

(** X8. Every request is answered in one of four ways: 400 for a
    missing or empty URL, 500 when the resolver throws, 404 when it
    finds nothing, each a finished plain-text response with its fixed
    body, or the header of a 200 response with the content type of the
    file the resolver returned. *)
Theorem X8_four_responses
    (ROOT_DIR : string) (fs : filesystem) (url : option string) :
  let out := Server.serve ROOT_DIR fs url in
  out = ({| fs_calls := []; res := plain 400 "Bad Request" |}, Ok tt)
  \/ (exists calls,
        out = ({| fs_calls := calls;
                  res := plain 500 "Internal Server Error" |}, Ok tt))
  \/ (exists calls,
        out = ({| fs_calls := calls; res := plain 404 "Not Found" |}, Ok tt))
  \/ (exists u w p,
        url = Some u
        /\ Server.resolveFilePath ROOT_DIR fs u start = (w, Ok (Some p))
        /\ header (response_of out)
           = Some (200, [("Content-Type", Server.contentType_of p)])).
Proof.
  intros out. unfold out.
  destruct (Server.falsy url) eqn:Hfalsy.
  { left. now apply serve_falsy. }
  destruct url as [u|]; [| discriminate]. simpl in Hfalsy.
  destruct (Server.resolveFilePath ROOT_DIR fs u start) as [w [[p|]|e]] eqn:Hrun;
    pose proof (resolve_keeps_response _ _ _ _ _ _ Hrun) as Hres.
  - right. right. right. exists u, w, p.
    split; [reflexivity | split; [exact Hrun |]].
    now apply (serve_resolved_header ROOT_DIR fs u w p).
  - right. right. left. exists (fs_calls w).
    now apply serve_not_found.
  - right. left. exists (fs_calls w). now apply (serve_throw _ _ _ _ e).
Qed.

(** X9. When the stream of the resolved file delivers its chunks and
    ends, the response is complete: status 200, the content type of the
    file, the chunks in order as body, and the handler returns
    normally. *)
Theorem X9_streamed_file
    (ROOT_DIR : string) (fs : filesystem) (url : string) (w : world)
    (p : string) (chunks : list string) (rest : list stream_event) :
  String.eqb url "" = false ->
  Server.resolveFilePath ROOT_DIR fs url start = (w, Ok (Some p)) ->
  stream_of fs p = (map Data chunks ++ End :: rest)%list ->
  Server.serve ROOT_DIR fs (Some url)
  = ({| fs_calls := fs_calls w ++ [CallCreateReadStream p];
        res := {| header :=
                    Some (200, [("Content-Type", Server.contentType_of p)]);
                  body := all_data chunks; finished := true |} |}, Ok tt).
Proof.
  intros Hurl Hrun Hstream.
  rewrite (serve_resolved _ _ _ _ _ Hurl Hrun), Hstream.
  unfold streaming. rewrite pipe_data. simpl.
  unfold Res.end_, update_res. simpl. now rewrite append_nil_r.
Qed.

Lemma X9_witness :
  Server.serve Demo.ROOT_DIR Demo.site (Some "/app.js")
  = ({| fs_calls := [CallStatSync "/srv/app/public/app.js";
                     CallCreateReadStream "/srv/app/public/app.js"];
        res := {| header :=
                    Some (200, [("Content-Type",
                                 "application/javascript; charset=utf-8")]);
                  body := "console.log(1);"; finished := true |} |}, Ok tt).
Proof.
  apply (X9_streamed_file Demo.ROOT_DIR Demo.site "/app.js"
           (logged start [CallStatSync "/srv/app/public/app.js"])
           "/srv/app/public/app.js" ["console.log("; "1);"] []);
    reflexivity.
Defined.

(** X10. When the stream fails, at once or after some chunks, the
    listener's [writeHead(500)] throws: the response keeps the 200
    header and the chunks written so far, it is never ended, and no
    error body is sent. *)
Theorem X10_stream_failure
    (ROOT_DIR : string) (fs : filesystem) (url : string) (w : world)
    (p : string) (chunks : list string) (rest : list stream_event) :
  String.eqb url "" = false ->
  Server.resolveFilePath ROOT_DIR fs url start = (w, Ok (Some p)) ->
  stream_of fs p = (map Data chunks ++ StreamError :: rest)%list ->
  Server.serve ROOT_DIR fs (Some url)
  = ({| fs_calls := fs_calls w ++ [CallCreateReadStream p];
        res := {| header :=
                    Some (200, [("Content-Type", Server.contentType_of p)]);
                  body := all_data chunks; finished := false |} |},
     Throw ERR_HTTP_HEADERS_SENT).
Proof.
  intros Hurl Hrun Hstream.
  rewrite (serve_resolved _ _ _ _ _ Hurl Hrun), Hstream.
  unfold streaming. now rewrite pipe_data.
Qed.

(** X11. No exception of the resolver leaves the handler.  The only
    exception a request can end with is [ERR_HTTP_HEADERS_SENT], and
    only when a file was resolved, its 200 header stored, and its
    stream reported an error. *)
Theorem X11_only_stream_errors_escape
    (ROOT_DIR : string) (fs : filesystem) (url : option string) (e : exn) :
  snd (Server.serve ROOT_DIR fs url) = Throw e ->
  e = ERR_HTTP_HEADERS_SENT
  /\ exists u w p,
       url = Some u
       /\ Server.resolveFilePath ROOT_DIR fs u start = (w, Ok (Some p))
       /\ In StreamError (stream_of fs p)
       /\ header (response_of (Server.serve ROOT_DIR fs url))
          = Some (200, [("Content-Type", Server.contentType_of p)]).
Proof.
  intros Hthrow.
  destruct (Server.falsy url) eqn:Hfalsy.
  { now rewrite (serve_falsy _ _ _ Hfalsy) in Hthrow. }
  destruct url as [u|]; [| discriminate]. simpl in Hfalsy.
  destruct (Server.resolveFilePath ROOT_DIR fs u start) as [w [[p|]|e']] eqn:Hrun;
    pose proof (resolve_keeps_response _ _ _ _ _ _ Hrun) as Hres.
  - pose proof (serve_resolved_header _ _ _ _ _ Hfalsy Hrun) as Hhead.
    rewrite (serve_resolved _ _ _ _ _ Hfalsy Hrun) in Hthrow.
    destruct (pipe_throws _ _ _ Hthrow) as [-> Hin].
    split; [reflexivity |]. now exists u, w, p.
  - now rewrite (serve_not_found _ _ _ _ Hfalsy Hrun Hres) in Hthrow.
  - now rewrite (serve_throw _ _ _ _ _ Hfalsy Hrun Hres) in Hthrow.
Qed.

Lemma X11_witness :
  ERR_HTTP_HEADERS_SENT = ERR_HTTP_HEADERS_SENT
  /\ exists u w p,
       Some "/locked.txt" = Some u
       /\ Server.resolveFilePath Demo.ROOT_DIR Demo.site u start
          = (w, Ok (Some p))
       /\ In StreamError (stream_of Demo.site p)
       /\ header (response_of
                    (Server.serve Demo.ROOT_DIR Demo.site (Some "/locked.txt")))
          = Some (200, [("Content-Type", Server.contentType_of p)]).
Proof.
  apply (X11_only_stream_errors_escape Demo.ROOT_DIR Demo.site
           (Some "/locked.txt") ERR_HTTP_HEADERS_SENT).
  reflexivity.
Defined.

Lemma X6_witness :
  Server.serve Demo.ROOT_DIR
    (with_stat Demo.site "/srv/app/public/secret" (StatError "EACCES"))
    (Some "/secret")
  = ({| fs_calls := [CallStatSync "/srv/app/public/secret"];
        res := plain 500 "Internal Server Error" |}, Ok tt).
Proof.
  destruct (X6_stat_error_is_500 Demo.ROOT_DIR
              (with_stat Demo.site "/srv/app/public/secret" (StatError "EACCES"))
              "/secret" "/secret" "EACCES" eq_refl eq_refl eq_refl)
    as [Hpublic _].
  apply Hpublic. reflexivity.
Defined.

Lemma X7_witness :
  Server.serve Demo.ROOT_DIR
    (with_stat
       (with_stat Demo.site "/srv/app/public/pipe" (Stats OtherEntry))
       "/srv/app/pipe" (Stats OtherEntry))
    (Some "/pipe")
  = ({| fs_calls := [CallStatSync "/srv/app/public/pipe";
                     CallStatSync "/srv/app/pipe"];
        res := plain 404 "Not Found" |}, Ok tt).
Proof.
  destruct (X7_other_entries_are_skipped Demo.ROOT_DIR
              (with_stat
                 (with_stat Demo.site "/srv/app/public/pipe" (Stats OtherEntry))
                 "/srv/app/pipe" (Stats OtherEntry))
              "/pipe" "/pipe" eq_refl eq_refl eq_refl)
    as [_ Hother].
  apply Hother. reflexivity.
Defined.

Lemma X10_witness :
  Server.serve Demo.ROOT_DIR
    (with_stream Demo.site "/srv/app/public/app.js"
       [Data "console."; Data "log("; StreamError; Data "1);"; End])
    (Some "/app.js")
  = ({| fs_calls := [CallStatSync "/srv/app/public/app.js";
                     CallCreateReadStream "/srv/app/public/app.js"];
        res := {| header :=
                    Some (200, [("Content-Type",
                                 "application/javascript; charset=utf-8")]);
                  body := "console.log("; finished := false |} |},
     Throw ERR_HTTP_HEADERS_SENT).
Proof.
  apply (X10_stream_failure Demo.ROOT_DIR
           (with_stream Demo.site "/srv/app/public/app.js"
              [Data "console."; Data "log("; StreamError; Data "1);"; End])
           "/app.js"
           (logged start [CallStatSync "/srv/app/public/app.js"])
           "/srv/app/public/app.js" ["console."; "log("] [Data "1);"; End]);
    reflexivity.
Defined.

(** ** The sanitizer, the port, the content type *)

Lemma strip_by_length (P : string -> Prop) :
  (forall s, (forall t, String.length t < String.length s -> P t) -> P s) ->
  forall s, P s.
Proof.
  intros Hstep s.
  assert (H : forall n t, String.length t < n -> P t).
  { induction n as [|n IH]; intros t Ht; [lia |].
    apply Hstep. intros t' Ht'. apply IH. lia. }
  apply (H (S (String.length s))). lia.
Qed.

(** X12. Removing the leading parent segments is done once and for
    all: the result is the input without a prefix made of [../] and
    [..\] only, it starts with neither of them, and removing again
    changes nothing. *)
Theorem X12_strip_leading_parents (s : string) :
  (exists pre,
      s = pre ++ Server.strip_leading_parents s
      /\ Server.strip_leading_parents pre = "")
  /\ (forall rest, Server.strip_leading_parents s <> "../" ++ rest)
  /\ (forall rest, Server.strip_leading_parents s <> "..\" ++ rest)
  /\ Server.strip_leading_parents (Server.strip_leading_parents s)
     = Server.strip_leading_parents s.
Proof.
  split; [| split; [| split]].
  - induction s as [s IH] using strip_by_length.
    destruct s as [|c0 [|c1 [|c2 r]]];
      try (exists ""; split; reflexivity).
    simpl.
    destruct (Str.is_dot c0 && Str.is_dot c1
              && (Str.is_slash c2 || Str.is_backslash c2)) eqn:Hc.
    + destruct (IH r) as (pre & Hr & Hpre); [simpl; lia |].
      exists (String c0 (String c1 (String c2 pre))). split.
      * rewrite !append_cons. now rewrite <- Hr.
      * simpl. now rewrite Hc.
    + exists "". split; reflexivity.
  - intros rest. apply (strip_leading_parents_done s rest "/"). reflexivity.
  - intros rest. apply (strip_leading_parents_done s rest "\"). reflexivity.
  - induction s as [s IH] using strip_by_length.
    destruct s as [|c0 [|c1 [|c2 r]]]; try reflexivity.
    simpl.
    destruct (Str.is_dot c0 && Str.is_dot c1
              && (Str.is_slash c2 || Str.is_backslash c2)) eqn:Hc.
    + apply IH. simpl. lia.
    + simpl. now rewrite Hc.
Qed.


Lemma no_slash_append (a b : string) :
  no_slash (a ++ b) = no_slash a && no_slash b.
Proof.
  induction a as [|c a IH]; [reflexivity |].
  rewrite append_cons. simpl. now rewrite IH, andb_assoc.
Qed.

Lemma no_slash_rev (s : string) : no_slash (Str.rev s) = no_slash s.
Proof.
  induction s as [|c s IH]; [reflexivity |].
  rewrite rev_cons, no_slash_append, IH. simpl.
  now rewrite andb_true_r, andb_comm.
Qed.

Lemma drop_slashes_no_slash (r t : string) :
  r <> "" -> no_slash r = true -> Path.drop_slashes (r ++ t) = r ++ t.
Proof.
  destruct r as [|c r]; [contradiction |]. intros _. simpl.
  intros [Hc _]%andb_prop. rewrite append_cons. simpl.
  now destruct (Str.is_slash c).
Qed.

Lemma last_component_no_slash (r t : string) :
  no_slash r = true -> t = "" \/ (exists t', t = String "/" t') ->
  Path.last_component_rev (r ++ t) = r.
Proof.
  intros Hr Ht. induction r as [|c r IH].
  - destruct Ht as [-> | (t' & ->)]; reflexivity.
  - simpl in Hr. apply andb_prop in Hr as [Hc Hr].
    rewrite append_cons. simpl. destruct (Str.is_slash c); [discriminate |].
    now rewrite IH.
Qed.

Lemma extname_last_component (pre name : string) :
  component_start pre -> name <> "" -> no_slash name = true ->
  Path.extname (pre ++ name) = Path.extname name.
Proof.
  intros Hpre Hname Hns. unfold Path.extname, Path.extname_rev.
  rewrite rev_append.
  assert (Hr : no_slash (Str.rev name) = true) by now rewrite no_slash_rev.
  assert (Hne : Str.rev name <> "") by now apply rev_nonempty.
  assert (Ht : Str.rev pre = "" \/ exists t', Str.rev pre = String "/" t').
  { destruct Hpre as [-> | (q & ->)]; [now left | right].
    rewrite rev_append. now eexists. }
  rewrite (drop_slashes_no_slash _ _ Hne Hr).
  rewrite (last_component_no_slash _ _ Hr Ht).
  pose proof (drop_slashes_no_slash _ "" Hne Hr) as Hdrop.
  pose proof (last_component_no_slash _ "" Hr (or_introl eq_refl)) as Hlast.
  rewrite append_nil_r in Hdrop, Hlast. now rewrite Hdrop, Hlast.
Qed.

(** X14. The content type depends on the last component of the
    resolved path only: the directories above it, whatever dots and
    extensions their names carry, play no part. *)
Theorem X14_content_type_of_last_component (dir name : string) :
  String.eqb name "" = false -> no_slash name = true ->
  Server.contentType_of (dir ++ "/" ++ name) = Server.contentType_of name.
Proof.
  intros Hname Hns. unfold Server.contentType_of.
  rewrite <- append_assoc, extname_last_component; [reflexivity | | | exact Hns].
  - right. now exists dir.
  - intros ->. discriminate.
Qed.

Lemma X14_witness :
  Server.contentType_of "/srv/app/public/v1.2.css/notes"
  = Server.contentType_of "notes".
Proof.
  apply (X14_content_type_of_last_component "/srv/app/public/v1.2.css" "notes");
    reflexivity.
Defined.

(** ** Decimal texts *)











(** ** How much the resolver asks *)

(** X15. To resolve one request the resolver makes at most four calls
    into the file system (a [statSync] and at most one [existsSync] per
    candidate), and none at all when the path does not decode. *)
Theorem X15_at_most_four_calls
    (ROOT_DIR : string) (fs : filesystem) (url : string)
    (w : world) (r : result (option string)) :
  Server.resolveFilePath ROOT_DIR fs url start = (w, r) ->
  length (fs_calls w) <= 4
  /\ (Server.relativePath_of url = None -> fs_calls w = []).
Proof.
  unfold Server.resolveFilePath.
  destruct (Server.relativePath_of url) as [rel|].
  - unfold Server.candidates_of. rewrite probe_all_cons, probe_eq.
    intros H. split; [| discriminate]. revert H.
    destruct (stat_of fs (Path.join (Server.PUBLIC_DIR ROOT_DIR) rel))
      as [[]|code1];
      try destruct (stat_of fs (index_of (Path.join (Server.PUBLIC_DIR ROOT_DIR) rel)));
      try destruct (String.eqb code1 "ENOENT");
      try (intros [= <- _]; simpl; lia);
      rewrite probe_all_cons, probe_eq;
      destruct (stat_of fs (Path.join ROOT_DIR rel)) as [[]|code2];
      try destruct (stat_of fs (index_of (Path.join ROOT_DIR rel)));
      try destruct (String.eqb code2 "ENOENT");
      intros [= <- _]; simpl; lia.
  - intros [= <- _]. split; [simpl; lia | reflexivity].
Qed.

(** ** Letter case *)

Lemma lower_keeps_marks (c : ascii) :
  Str.is_slash (Str.lower_ascii c) = Str.is_slash c
  /\ Str.is_dot (Str.lower_ascii c) = Str.is_dot c.
Proof. destruct c as [[] [] [] [] [] [] [] []]; split; reflexivity. Qed.

Lemma lower_append (a b : string) :
  Str.toLowerCase (a ++ b) = Str.toLowerCase a ++ Str.toLowerCase b.
Proof.
  induction a as [|c a IH]; [reflexivity |].
  rewrite append_cons. simpl. now rewrite IH.
Qed.

Lemma lower_rev (s : string) :
  Str.toLowerCase (Str.rev s) = Str.rev (Str.toLowerCase s).
Proof.
  induction s as [|c s IH]; [reflexivity |].
  simpl Str.toLowerCase at 2. rewrite !rev_cons, lower_append, IH.
  reflexivity.
Qed.

Lemma lower_drop_slashes (r : string) :
  Path.drop_slashes (Str.toLowerCase r)
  = Str.toLowerCase (Path.drop_slashes r).
Proof.
  induction r as [|c r IH]; [reflexivity |]. simpl.
  destruct (lower_keeps_marks c) as [-> _].
  now destruct (Str.is_slash c).
Qed.

Lemma lower_last_component (r : string) :
  Path.last_component_rev (Str.toLowerCase r)
  = Str.toLowerCase (Path.last_component_rev r).
Proof.
  induction r as [|c r IH]; [reflexivity |]. simpl.
  destruct (lower_keeps_marks c) as [-> _].
  destruct (Str.is_slash c); [reflexivity |]. simpl. now rewrite IH.
Qed.

Lemma lower_cut_at_dot (r : string) :
  Path.cut_at_dot (Str.toLowerCase r)
  = match Path.cut_at_dot r with
    | Some (e, before) => Some (Str.toLowerCase e, Str.toLowerCase before)
    | None => None
    end.
Proof.
  induction r as [|c r IH]; [reflexivity |]. simpl.
  destruct (lower_keeps_marks c) as [_ ->].
  destruct (Str.is_dot c) eqn:Hdot.
  - unfold Str.is_dot in Hdot. apply Ascii.eqb_eq in Hdot. now subst.
  - rewrite IH. now destruct (Path.cut_at_dot r) as [[e before]|].
Qed.

Lemma lower_is_empty (s : string) :
  String.eqb (Str.toLowerCase s) "" = String.eqb s "".
Proof. now destruct s. Qed.

Lemma lower_is_dotdot (s : string) :
  String.eqb (Str.toLowerCase s) ".." = String.eqb s "..".
Proof.
  destruct s as [|c1 [|c2 [|c3 s]]]; try reflexivity; simpl;
    destruct (lower_keeps_marks c1) as [_ H1]; unfold Str.is_dot in H1;
    rewrite H1; try reflexivity;
    destruct (lower_keeps_marks c2) as [_ H2]; unfold Str.is_dot in H2;
    now rewrite H2.
Qed.

(** [path.extname] and lower-casing can be done in either order. *)
Lemma lower_extname (p : string) :
  Str.toLowerCase (Path.extname p) = Path.extname (Str.toLowerCase p).
Proof.
  unfold Path.extname, Path.extname_rev.
  rewrite <- lower_rev, lower_drop_slashes, lower_last_component.
  rewrite lower_cut_at_dot, lower_is_dotdot.
  destruct (Path.cut_at_dot _) as [[e before]|]; [| reflexivity].
  rewrite lower_is_empty.
  destruct (String.eqb before ""); [reflexivity |].
  destruct (String.eqb _ ".."); [reflexivity |]. apply lower_rev.
Qed.

(** X17. The content type does not depend on letter case: two paths
    that differ only in the case of their ASCII letters get the same
    content type. *)
Theorem X17_content_type_ignores_case (p q : string) :
  Str.toLowerCase p = Str.toLowerCase q ->
  Server.contentType_of p = Server.contentType_of q.
Proof.
  intros H. unfold Server.contentType_of. now rewrite !lower_extname, H.
Qed.

Lemma X17_witness :
  Server.contentType_of "/Srv/App/Public/LOGO.Png"
  = Server.contentType_of "/srv/app/public/logo.png".
Proof.
  apply (X17_content_type_ignores_case "/Srv/App/Public/LOGO.Png"
           "/srv/app/public/logo.png").
  reflexivity.
Defined.

Lemma X15_witness :
  length (fs_calls (fst (Server.resolveFilePath Demo.ROOT_DIR Demo.site
                           "../.." start))) <= 4
  /\ (Server.relativePath_of "../.." = None ->
      fs_calls (fst (Server.resolveFilePath Demo.ROOT_DIR Demo.site
                       "../.." start)) = []).
Proof.
  apply (X15_at_most_four_calls Demo.ROOT_DIR Demo.site "../.."
           (fst (Server.resolveFilePath Demo.ROOT_DIR Demo.site "../.." start))
           (Ok (Some "/srv/index.html"))).
  reflexivity.
Defined.
